(** * r.import.worker: the retry loop and the workspace protocol

    A shallow embedding of [main] of [r.import.worker.py].  The script
    orchestrates external collaborators (the GRASS session, the [r.import]
    tool, the file system); their answers are read from a [World] record and
    every call the script makes is appended to a trace of [event]s, so that
    the order and the arguments of the calls can be stated.  Python
    exceptions are threaded through a small state-and-error monad.

    The exceptions of the script's own code are modelled: a missing
    dictionary key, output that does not decode, and [grass.fatal].  The
    collaborators are taken to return: an exception raised inside one of
    them (a session file that cannot be copied, a tool that cannot be
    started) is outside the model.

    Python [str] values are represented by their UTF-8 encoding, as
    [string]; [bytes] values use the same type.  Substring search on valid
    UTF-8 agrees with substring search on code points.  The gettext
    function [_] is taken in the untranslated locale, where it returns its
    argument. *)

From Stdlib Require Import String Ascii ZArith NArith Lia.
From stdpp Require Import base gmap strings pretty list.

Open Scope string_scope.
Open Scope list_scope.

(** ** Python strings *)

Module PyStr.

(** [needle in hay] on [str]. *)
Fixpoint contains (needle hay : string) : bool :=
  match hay with
  | EmptyString => String.prefix needle EmptyString
  | String _ rest => String.prefix needle hay || contains needle rest
  end.

(** Truthiness of a [str]: the empty string is falsy. *)
Definition truthy (s : string) : bool :=
  match s with EmptyString => false | String _ _ => true end.

Definition byte_in (lo hi : N) (c : ascii) : bool :=
  ((lo <=? N_of_ascii c) && (N_of_ascii c <=? hi))%N.

Definition continuation : ascii -> bool := byte_in 128 191.

(** Well-formed UTF-8 (shortest form, no surrogates, at most U+10FFFF), which
    is what the strict codec of [bytes.decode("utf-8")] accepts. *)
Fixpoint utf8_valid (s : string) : bool :=
  match s with
  | EmptyString => true
  | String c0 s1 =>
    if byte_in 0 127 c0 then utf8_valid s1 else
    match s1 with
    | EmptyString => false
    | String c1 s2 =>
      if byte_in 194 223 c0 then continuation c1 && utf8_valid s2 else
      match s2 with
      | EmptyString => false
      | String c2 s3 =>
        if byte_in 224 239 c0 then
          (if byte_in 224 224 c0 then byte_in 160 191 c1
           else if byte_in 237 237 c0 then byte_in 128 159 c1
           else continuation c1)
          && continuation c2 && utf8_valid s3
        else
        match s3 with
        | EmptyString => false
        | String c3 s4 =>
          byte_in 240 244 c0
          && (if byte_in 240 240 c0 then byte_in 144 191 c1
              else if byte_in 244 244 c0 then byte_in 128 143 c1
              else continuation c1)
          && continuation c2 && continuation c3 && utf8_valid s4
        end
      end
    end
  end.

(** [os.path.join] on POSIX: an absolute component discards what precedes it,
    otherwise components are joined by one separator. *)
Definition ends_with_slash (s : string) : bool :=
  match rev (list_ascii_of_string s) with
  | c :: _ => Ascii.eqb c "/"
  | [] => false
  end.

Definition join2 (path b : string) : string :=
  if String.prefix "/" b then b
  else if negb (truthy path) || ends_with_slash path then path +:+ b
  else path +:+ "/" +:+ b.

Definition path_join (a : string) (ps : list string) : string :=
  fold_left join2 ps a.

End PyStr.

(** ** Insertion-ordered dictionaries

    [options], [flags] and [kwargs] are iterated with [.items()], so their
    order matters: they are association lists in insertion order. *)

Module PyDict.

Section Ordered.
  Context {V : Type}.

(** [d[k] = v]: overwrite in place, or append a new key. *)
Fixpoint setitem (k : string) (v : V) (d : list (string * V)) : list (string * V) :=
  match d with
  | [] => [(k, v)]
  | (k', v') :: d' =>
    if decide (k = k') then (k, v) :: d' else (k', v') :: setitem k v d'
  end.

End Ordered.

End PyDict.

(** ** Values, events and the world *)

(** A number of the region dictionary: [grass.region()] converts the counts
    to [int] and leaves the rest as [float]; a float is carried as its
    IEEE-754 bit pattern, no arithmetic is done on it. *)
Inductive num :=
| NInt (z : Z)
| NFloat (bits : Z).

(** Exceptions that can leave [main]. *)
Inductive exn :=
| KeyError (key : string)
| UnicodeDecodeError
| SystemExit (code : Z).

(** What the script does to the outside, in order. *)
Inductive event :=
| Message (msg : string)
| Warning (msg : string)
| Fatal (msg : string)
| TryRmdir (path : string)
| TryRemove (path : string)
| CopyFile (src dst : string)
| GMapset (flags mapset : string)
| ReadRegion
| GRegion (flags : string) (kwargs : gmap string num)
| Popen (cmd : string)
| Sleep (secs : nat)
| FindFile (name element mapset : string).

(** The option and flag schema declared in the header of the script, in the
    order of declaration, which is the order of [options.items()]. *)
Record Options := {
  newmapset : string;
  input : string;
  band : string;
  memory : string;
  output : string;
  resample : string;
  extent : string;
  resolution : string;
  resolution_value : string;
  title : string;
}.

Record Flags := {
  flag_e : bool;
  flag_n : bool;
  flag_l : bool;
  flag_o : bool;
}.

Definition options_items (o : Options) : list (string * string) :=
  [ ("newmapset", newmapset o); ("input", input o); ("band", band o);
    ("memory", memory o); ("output", output o); ("resample", resample o);
    ("extent", extent o); ("resolution", resolution o);
    ("resolution_value", resolution_value o); ("title", title o) ].

Definition flags_items (f : Flags) : list (string * bool) :=
  [ ("e", flag_e f); ("n", flag_n f); ("l", flag_l f); ("o", flag_o f) ].

(** What the collaborators answer. [w_import n cmd] is the pair
    (stdout, stderr) of the [n]-th run of the shell command [cmd];
    [w_find_file] is the ["file"] entry of [grass.find_file] after the
    loop, empty when nothing is found. *)
Record World := {
  w_gisenv : gmap string string;
  w_pid : N;
  w_region : gmap string num;
  w_import : nat -> string -> string * string;
  w_find_file : string -> string -> string -> string;
}.

(** The mutable part: [os.environ] and the trace. *)
Record state := {
  environ : gmap string string;
  trace : list event;
}.

(** ** The monad *)

Inductive result (A : Type) :=
| Ok (a : A)
| Raise (e : exn)
| Diverged.
Arguments Ok {A} a.
Arguments Raise {A} e.
Arguments Diverged {A}.

Definition M (A : Type) : Type := state -> result A * state.

Global Instance M_ret : MRet M := fun A (a : A) s => (Ok a, s).

Global Instance M_bind : MBind M := fun A B (f : A -> M B) (c : M A) s =>
  match c s with
  | (Ok a, s') => f a s'
  | (Raise e, s') => (Raise e, s')
  | (Diverged, s') => (Diverged, s')
  end.

Definition ret {A} (a : A) : M A := mret a.

Definition raise {A} (e : exn) : M A := fun s => (Raise e, s).

Definition diverge {A} : M A := fun s => (Diverged, s).

Definition emit (e : event) : M unit :=
  fun s => (Ok tt, {| environ := environ s; trace := trace s ++ [e] |}).

(** [d[k]] on a dictionary read from the session. *)
Definition getitem {V} (d : gmap string V) (k : string) : M V :=
  match d !! k with
  | Some v => ret v
  | None => raise (KeyError k)
  end.

(** [del d[k]]. *)
Definition delitem {V} (k : string) (d : gmap string V) : M (gmap string V) :=
  match d !! k with
  | Some _ => ret (delete k d)
  | None => raise (KeyError k)
  end.

Definition environ_get (k : string) : M string :=
  fun s => getitem (environ s) k s.

Definition environ_set (k v : string) : M unit :=
  fun s => (Ok tt, {| environ := <[k := v]> (environ s); trace := trace s |}).

Definition environ_update (kvs : list (string * string)) : M unit :=
  fun s => (Ok tt, {| environ := foldl (fun m kv => <[kv.1 := kv.2]> m) (environ s) kvs;
                      trace := trace s |}).

(** [bytes.decode("utf-8")]. *)
Definition decode (b : string) : M string :=
  if PyStr.utf8_valid b then ret b else raise UnicodeDecodeError.

(** [grass.fatal]: prints the error and exits with status 1. *)
Definition fatal {A} (msg : string) : M A :=
  emit (Fatal msg);; raise (SystemExit 1).

(** ** The worker *)

Definition max_tries : nat := 10.

(** The progress ladder [r.import] prints when it completes. *)
Definition progress_marker : string :=
  String "010"
    ("0..3..6..9..12..15..18..21..24..27..30..33..36..39..42..45..48"
     +:+ "..51..54..57..60..63..66..69..72..75..78..81..84..87..90..93..96"
     +:+ "..99..100" +:+ String "010" "").

Definition no_overlap_msg : string :=
  "Input raster does not overlap current computational region".

Definition empty_msg (name : string) : string :=
  "The reprojected raster <" +:+ name +:+ "> is empty".

(** The locals of the retry loop. *)
Record locals := {
  tries : nat;
  next_try : bool;
  noOverlap : bool;
}.

Section Worker.

Variable options : Options.
Variable flags : Flags.
Variable w : World.

(** Lines 207-210: [kwargs]. *)
Definition build_kwargs (items : list (string * string)) : list (string * string) :=
  foldl (fun kwargs '(opt, val) =>
           if negb (bool_decide (opt = "newmapset")) && PyStr.truthy val
           then PyDict.setitem opt val kwargs else kwargs)
        [] items.

(** Lines 211-214: [flagstr]. *)
Definition build_flagstr (items : list (string * bool)) : string :=
  foldl (fun flagstr '(flag, val) => if val : bool then flagstr +:+ flag else flagstr)
        "" items.

(** Lines 216-218: [kwargsstr]. *)
Definition build_kwargsstr (kwargs : list (string * string)) : string :=
  foldl (fun kwargsstr '(key, val) => kwargsstr +:+ " " +:+ key +:+ "='" +:+ val +:+ "'")
        "" kwargs.

(** Line 226: the shell command. *)
Definition import_cmd (kwargsstr : string) : string := "r.import --q " +:+ kwargsstr.

(** Lines 162-203.  The calls to the collaborators ([grass.gisenv],
    [try_rmdir], [try_remove], [shutil.copyfile], [grass.region],
    [grass.run_command]) are taken to return; the exceptions they can raise
    (a missing session file, a module that fails) are not modelled.  The
    exceptions of the script's own dictionary accesses are.  What is said
    of a run is therefore said under the premise that the setup
    completes, or up to the first call that does not return. *)
Definition workspace_setup : M string :=
  environ_update [ ("GRASS_COMPRESS_NULLS", "1"); ("GRASS_COMPRESSOR", "LZ4");
                   ("GRASS_MESSAGE_FORMAT", "plain") ];;
  let env := w_gisenv w in
  gisdbase ← getitem env "GISDBASE";
  location ← getitem env "LOCATION_NAME";
  let new_mapset := newmapset options in
  emit (Message ("New mapset: <" +:+ new_mapset +:+ ">"));;
  emit (TryRmdir (PyStr.path_join gisdbase [location; new_mapset]));;
  gisrc ← environ_get "GISRC";
  let newgisrc := gisrc +:+ "_" +:+ pretty (w_pid w) in
  emit (TryRemove newgisrc);;
  emit (CopyFile gisrc newgisrc);;
  environ_set "GISRC" newgisrc;;
  reg ← (if decide (extent options = "region")
         then emit ReadRegion;; ret (Some (w_region w))
         else ret None);
  cur ← environ_get "GISRC";
  emit (Message ("GISRC: <" +:+ cur +:+ ">"));;
  emit (GMapset "c" new_mapset);;
  (if decide (extent options = "region")
   then match reg with
        | Some reg =>
          reg ← delitem "cells" reg;
          reg ← delitem "rows" reg;
          reg ← delitem "cols" reg;
          reg ← delitem "zone" reg;
          reg ← delitem "projection" reg;
          emit (GRegion "p" reg)
        | None => ret tt
        end
   else ret tt);;
  ret gisrc.

(** Lines 224-294: one pass through the body of [while next_try]. *)
Definition loop_body (kwargsstr : string) (l : locals) : M locals :=
  let tries := S (tries l) in
  let cmd := import_cmd kwargsstr in
  emit (Popen cmd);;
  let resp := w_import w tries cmd in
  out ← decode resp.1;
  err ← decode resp.2;
  let resp_text := ("" +:+ out) +:+ err in
  if PyStr.contains progress_marker resp_text then
    ret {| tries := tries; next_try := false; noOverlap := noOverlap l |}
  else if PyStr.contains no_overlap_msg resp_text then
    emit (Warning ("Input raster map <" +:+ input options
                   +:+ "> does not overlap with current computational region"));;
    ret {| tries := tries; next_try := false; noOverlap := true |}
  else if PyStr.contains (empty_msg (output options)) resp_text then
    emit (Warning ("Only no-data values found in current region for input raster <"
                   +:+ input options +:+ ">"));;
    ret {| tries := tries; next_try := false; noOverlap := noOverlap l |}
  else if PyStr.contains "cpl_vsil_gzip.cpp" resp_text && (tries <? max_tries)%nat then
    emit (Sleep 10);;
    let msg := "Retrying " +:+ pretty tries +:+ "/" +:+ pretty max_tries
               +:+ " (" +:+ input options +:+ ") ..." in
    emit (Warning msg);;
    ret {| tries := tries; next_try := true; noOverlap := noOverlap l |}
  else if PyStr.contains "503" resp_text then
    let msg := resp_text +:+ " (" +:+ input options +:+ ")" in
    if (tries <? max_tries)%nat then
      emit (Sleep 10);;
      let msg := msg +:+ " Retrying " +:+ pretty tries +:+ "/" +:+ pretty max_tries +:+ " ..." in
      emit (Warning msg);;
      ret {| tries := tries; next_try := true; noOverlap := noOverlap l |}
    else
      emit (Warning msg);;
      ret {| tries := tries; next_try := false; noOverlap := noOverlap l |}
  else if negb (bool_decide (resp_text = "")) then
    let msg := resp_text +:+ " (" +:+ input options +:+ ")" in
    if (tries <? max_tries)%nat then
      emit (Sleep 10);;
      let msg := msg +:+ " Retrying " +:+ pretty tries +:+ "/" +:+ pretty max_tries +:+ " ..." in
      emit (Warning msg);;
      ret {| tries := tries; next_try := true; noOverlap := noOverlap l |}
    else
      emit (Warning msg);;
      ret {| tries := tries; next_try := false; noOverlap := noOverlap l |}
  else
    ret {| tries := tries; next_try := false; noOverlap := noOverlap l |}.

(** [while next_try: ...]; the fuel bounds the number of passes. *)
Fixpoint while_next_try (fuel : nat) (kwargsstr : string) (l : locals) : M locals :=
  if next_try l then
    match fuel with
    | O => diverge
    | S fuel' => l' ← loop_body kwargsstr l; while_next_try fuel' kwargsstr l'
    end
  else ret l.

(** Lines 206-294. *)
Definition import_with_retry (fuel : nat) : M locals :=
  emit (Message "Running r.import ...");;
  let kwargs := build_kwargs (options_items options) in
  let flagstr := build_flagstr (flags_items flags) in
  let kwargsstr := build_kwargsstr kwargs in
  while_next_try fuel kwargsstr {| tries := 0; next_try := true; noOverlap := false |}.

(** Lines 296-309; [and] evaluates its operands left to right and stops at
    the first falsy one. *)
Definition verification (l : locals) : M unit :=
  let lookup element :=
    emit (FindFile (output options) element (newmapset options));;
    ret (w_find_file w (output options) element (newmapset options)) in
  raster ← lookup "raster";
  if PyStr.truthy raster then ret tt else
  group ← lookup "group";
  if PyStr.truthy group then ret tt else
  if noOverlap l then ret tt else
  fatal ("ERROR " +:+ output options).

(** Lines 311-313. *)
Definition cleanup (gisrc newgisrc : string) : M Z :=
  emit (TryRemove newgisrc);;
  environ_set "GISRC" gisrc;;
  ret 0%Z.

Definition main_fuel (fuel : nat) : M Z :=
  gisrc ← workspace_setup;
  let newgisrc := gisrc +:+ "_" +:+ pretty (w_pid w) in
  l ← import_with_retry fuel;
  verification l;;
  cleanup gisrc newgisrc.

(** [main]: ten passes are enough fuel (see [while_next_try_run]). *)
Definition main : M Z := main_fuel max_tries.

(** [sys.exit(main())]: the exit status of the process. An exception that
    is not [SystemExit] ends the interpreter with status 1. *)
Definition exit_status (r : result Z) : option Z :=
  match r with
  | Ok c => Some c
  | Raise (SystemExit c) => Some c
  | Raise _ => Some 1%Z
  | Diverged => None
  end.

End Worker.

(** ** The classification as the specification words it

    Seven rules in a fixed order of precedence; the first rule whose
    condition holds decides.  This table follows the prose of the
    specification and is compared with [loop_body] below. *)

Inductive rule :=
| SuccessMarker
| NoOverlapMarker
| EmptyResultMarker
| TransientGzip
| Transient503
| GenericNonEmpty
| BlankOutput.

Definition precedence : list rule :=
  [ SuccessMarker; NoOverlapMarker; EmptyResultMarker; TransientGzip;
    Transient503; GenericNonEmpty; BlankOutput ].

(** [budget] says that attempts remain: the attempt just made is not the
    tenth. *)
Definition rule_matches (output_name : string) (budget : bool) (text : string)
    (r : rule) : bool :=
  match r with
  | SuccessMarker => PyStr.contains progress_marker text
  | NoOverlapMarker => PyStr.contains no_overlap_msg text
  | EmptyResultMarker => PyStr.contains (empty_msg output_name) text
  | TransientGzip => PyStr.contains "cpl_vsil_gzip.cpp" text && budget
  | Transient503 => PyStr.contains "503" text
  | GenericNonEmpty => negb (bool_decide (text = ""))
  | BlankOutput => bool_decide (text = "")
  end.

Definition classify (output_name : string) (budget : bool) (text : string) : option rule :=
  List.find (rule_matches output_name budget text) precedence.

(** Whether the loop goes round again. *)
Definition rule_retries (budget : bool) (r : rule) : bool :=
  match r with
  | SuccessMarker | NoOverlapMarker | EmptyResultMarker | BlankOutput => false
  | TransientGzip => true
  | Transient503 | GenericNonEmpty => budget
  end.

Definition retry_suffix (n : nat) : string :=
  " Retrying " +:+ pretty n +:+ "/" +:+ pretty max_tries +:+ " ...".

(** What the rule logs, and the sleep before a retry. *)
Definition rule_events (input_name : string) (n : nat) (budget : bool) (text : string)
    (r : rule) : list event :=
  match r with
  | SuccessMarker | BlankOutput => []
  | NoOverlapMarker =>
    [ Warning ("Input raster map <" +:+ input_name
               +:+ "> does not overlap with current computational region") ]
  | EmptyResultMarker =>
    [ Warning ("Only no-data values found in current region for input raster <"
               +:+ input_name +:+ ">") ]
  | TransientGzip =>
    [ Sleep 10;
      Warning ("Retrying " +:+ pretty n +:+ "/" +:+ pretty max_tries
               +:+ " (" +:+ input_name +:+ ") ...") ]
  | Transient503 | GenericNonEmpty =>
    if budget
    then [ Sleep 10; Warning ((text +:+ " (" +:+ input_name +:+ ")") +:+ retry_suffix n) ]
    else [ Warning (text +:+ " (" +:+ input_name +:+ ")") ]
  end.

Definition rule_sets_flag (r : rule) : bool :=
  match r with NoOverlapMarker => true | _ => false end.

(** ** Observing a run *)

(** The state after some more events. *)
Definition log (s : state) (evs : list event) : state :=
  {| environ := environ s; trace := trace s ++ evs |}.

(** The events a computation added, from the states before and after. *)
Definition emitted (s s' : state) : list event :=
  drop (List.length (trace s)) (trace s').

Definition is_io (e : event) : bool :=
  match e with Popen _ | Sleep _ => true | _ => false end.

Definition is_popen (e : event) : bool :=
  match e with Popen _ => true | _ => false end.

Definition is_fatal (e : event) : bool :=
  match e with Fatal _ => true | _ => false end.

Definition is_warning (e : event) : bool :=
  match e with Warning _ => true | _ => false end.

(** One attempt, then [retries] times a ten-second sleep and an attempt. *)
Fixpoint ladder (cmd : string) (retries : nat) : list event :=
  match retries with
  | O => [Popen cmd]
  | S k => Popen cmd :: Sleep 10 :: ladder cmd k
  end.

(** The command line of every attempt. *)
Definition command_line (o : Options) : string :=
  import_cmd (build_kwargsstr (build_kwargs (options_items o))).

(** The options the specification forwards: all but the workspace name,
    and only those that have a value. *)
Definition forwarded (items : list (string * string)) : list (string * string) :=
  List.filter (fun kv => negb (bool_decide (kv.1 = "newmapset")) && PyStr.truthy kv.2) items.

Definition format_option (kv : string * string) : string :=
  " " +:+ kv.1 +:+ "='" +:+ kv.2 +:+ "'".

Fixpoint concat_strings (l : list string) : string :=
  match l with
  | [] => ""
  | x :: l' => x +:+ concat_strings l'
  end.

(** The keys [main] deletes from the captured region. *)
Definition stripped_keys : list string :=
  ["cells"; "rows"; "cols"; "zone"; "projection"].

Definition strip (reg : gmap string num) : gmap string num :=
  delete "projection" (delete "zone" (delete "cols" (delete "rows" (delete "cells" reg)))).

(** The argument of each [g.region] call in a trace. *)
Definition applied_regions (evs : list event) : list (gmap string num) :=
  omap (fun e => match e with GRegion _ kw => Some kw | _ => None end) evs.

(** The characters of a string, and how often one occurs. *)
Definition chars : string -> list ascii := list_ascii_of_string.

Definition occurrences (c : ascii) (s : string) : nat :=
  count_occ ascii_dec (chars s) c.

(** A raster named after the transient token. *)
Definition token_name : string := "cpl_vsil_gzip.cpp".

(** The events of the workspace setup. *)
Definition is_session_event (e : event) : bool :=
  match e with
  | Message _ | TryRmdir _ | TryRemove _ | CopyFile _ _ | GMapset _ _
  | ReadRegion | GRegion _ _ => true
  | _ => false
  end.

Definition key_error_only {A} (r : result A) : Prop :=
  match r with
  | Ok _ | Raise (KeyError _) => True
  | _ => False
  end.

(** A computation that only talks to the session and can only fail with a
    [KeyError]. *)
Definition session_only {A} (c : M A) : Prop :=
  forall s, exists env' evs,
    (c s).2 = {| environ := env'; trace := trace s ++ evs |}
    /\ forallb is_session_event evs = true
    /\ key_error_only (c s).1.

(** The artifact lookup of the verification step finds nothing. *)
Definition artifact_missing (o : Options) (w : World) : Prop :=
  w_find_file w (output o) "raster" (newmapset o) = ""
  /\ w_find_file w (output o) "group" (newmapset o) = "".

(** ** Example inputs *)

Module Ex.

Definition opts : Options :=
  {| newmapset := "job1"; input := "a.tif"; band := ""; memory := "300";
     output := "a"; resample := "nearest"; extent := "input";
     resolution := "estimated"; resolution_value := ""; title := "" |}.

Definition opts_region : Options :=
  {| newmapset := "job1"; input := "a.tif"; band := ""; memory := "300";
     output := "a"; resample := "nearest"; extent := "region";
     resolution := "estimated"; resolution_value := ""; title := "" |}.

Definition no_flags : Flags :=
  {| flag_e := false; flag_n := false; flag_l := false; flag_o := false |}.

Definition flags_eo : Flags :=
  {| flag_e := true; flag_n := false; flag_l := false; flag_o := true |}.

Definition gisenv : gmap string string :=
  list_to_map [ ("GISDBASE", "/data/grassdb"); ("LOCATION_NAME", "utm32");
                ("MAPSET", "PERMANENT") ].

(** What [g.region -gu] reports, as [grass.region()] returns it. *)
Definition region : gmap string num :=
  list_to_map [ ("projection", NInt 1); ("zone", NInt 32);
                ("n", NFloat 4708776); ("s", NFloat 4708775);
                ("w", NFloat 4698888); ("e", NFloat 4698889);
                ("nsres", NFloat 4621819); ("ewres", NFloat 4621819);
                ("rows", NInt 100); ("cols", NInt 200); ("cells", NInt 20000) ].

(** A world whose import tool prints [out n] on standard error at the
    [n]-th attempt and where the artifact lookup answers [found]. *)
Definition world (out : nat -> string) (found : string) : World :=
  {| w_gisenv := gisenv; w_pid := 4242; w_region := region;
     w_import := fun n _ => ("", out n);
     w_find_file := fun _ _ _ => found |}.

Definition start : state :=
  {| environ := {[ "GISRC" := "/tmp/grass/rc" ]}; trace := [] |}.

(** Two transient failures, then the progress ladder. *)
Definition transient_twice (n : nat) : string :=
  if (n <? 3)%nat then "ERROR 1: cpl_vsil_gzip.cpp: read error" else progress_marker.

(** The tool reports both the progress ladder and the no-overlap message. *)
Definition ladder_and_no_overlap : string :=
  progress_marker +:+ "WARNING: " +:+ no_overlap_msg.

End Ex.

(** ** The attempts of a run

    What the [n]-th attempt prints, how the table classifies it and what the
    pass through the loop body logs for it, read from the world alone. *)

Section Attempts.

Variable options : Options.
Variable w : World.

Definition attempt_output (n : nat) : string * string :=
  w_import w n (command_line options).

Definition attempt_decodes (n : nat) : bool :=
  PyStr.utf8_valid (attempt_output n).1 && PyStr.utf8_valid (attempt_output n).2.

Definition attempt_text (n : nat) : string :=
  (attempt_output n).1 +:+ (attempt_output n).2.

Definition attempt_budget (n : nat) : bool := (n <? max_tries)%nat.

Definition attempt_rule (n : nat) : option rule :=
  classify (output options) (attempt_budget n) (attempt_text n).

(** The attempt is followed by another one. *)
Definition attempt_retries (n : nat) : bool :=
  attempt_decodes n
  && match attempt_rule n with
     | Some r => rule_retries (attempt_budget n) r
     | None => false
     end.

Definition attempt_flag (n : nat) : bool :=
  match attempt_rule n with
  | Some r => rule_sets_flag r
  | None => false
  end.

Definition attempt_events (n : nat) : list event :=
  Popen (command_line options)
  :: (if attempt_decodes n
      then match attempt_rule n with
           | Some r => rule_events (input options) n (attempt_budget n) (attempt_text n) r
           | None => []
           end
      else []).

(** The first attempt from [n] on that is not followed by another one,
    looking at most [fuel] attempts ahead. *)
Fixpoint first_stop (fuel n : nat) : nat :=
  match fuel with
  | O => n
  | S fuel' => if attempt_retries n then first_stop fuel' (S n) else n
  end.

(** The number of the last attempt of the run. *)
Definition last_attempt : nat := first_stop (max_tries - 1) 1.

(** What the retry phase returns. *)
Definition retry_result : result locals :=
  if attempt_decodes last_attempt
  then Ok {| tries := last_attempt; next_try := false;
             noOverlap := attempt_flag last_attempt |}
  else Raise UnicodeDecodeError.

(** What the retry phase logs. *)
Definition retry_events : list event :=
  Message "Running r.import ..."
  :: concat (attempt_events <$> seq 1 last_attempt).

End Attempts.

(** The options with another input and band, and the world of another
    process. *)
Definition with_input_band (o : Options) (i b : string) : Options :=
  {| newmapset := newmapset o; input := i; band := b; memory := memory o;
     output := output o; resample := resample o; extent := extent o;
     resolution := resolution o; resolution_value := resolution_value o;
     title := title o |}.

Definition with_pid (w : World) (pid : N) : World :=
  {| w_gisenv := w_gisenv w; w_pid := pid; w_region := w_region w;
     w_import := w_import w; w_find_file := w_find_file w |}.

(** The environment after the defaults of lines 163-169 are set. *)
Definition with_defaults (env : gmap string string) : gmap string string :=
  <["GRASS_MESSAGE_FORMAT" := "plain"]>
    (<["GRASS_COMPRESSOR" := "LZ4"]> (<["GRASS_COMPRESS_NULLS" := "1"]> env)).

(** The events of a completed setup. *)
Definition setup_events (o : Options) (w : World) (gisdbase location gisrc : string)
    : list event :=
  let newgisrc := gisrc +:+ "_" +:+ pretty (w_pid w) in
  [ Message ("New mapset: <" +:+ newmapset o +:+ ">");
    TryRmdir (PyStr.path_join gisdbase [location; newmapset o]);
    TryRemove newgisrc; CopyFile gisrc newgisrc ]
  ++ (if decide (extent o = "region") then [ReadRegion] else [])
  ++ [ Message ("GISRC: <" +:+ newgisrc +:+ ">"); GMapset "c" (newmapset o) ]
  ++ (if decide (extent o = "region") then [GRegion "p" (strip (w_region w))] else []).

(** [kwargsstr] as [main] builds it from the options. *)
Definition kwargsstr_of (o : Options) : string :=
  build_kwargsstr (build_kwargs (options_items o)).

(** The warning of the transient rule. *)
Definition retry_warning (input_name : string) (n : nat) : event :=
  Warning ("Retrying " +:+ pretty n +:+ "/" +:+ pretty max_tries
           +:+ " (" +:+ input_name +:+ ") ...").

Section AttemptKinds.

Variable options : Options.
Variable w : World.

(** The attempt decodes and prints the transient token and none of the
    three terminal markers. *)
Definition transient_attempt (n : nat) : Prop :=
  attempt_decodes options w n = true
  /\ PyStr.contains "cpl_vsil_gzip.cpp" (attempt_text options w n) = true
  /\ PyStr.contains progress_marker (attempt_text options w n) = false
  /\ PyStr.contains no_overlap_msg (attempt_text options w n) = false
  /\ PyStr.contains (empty_msg (output options)) (attempt_text options w n) = false.

(** The attempt decodes and prints the progress ladder. *)
Definition success_attempt (n : nat) : Prop :=
  attempt_decodes options w n = true
  /\ PyStr.contains progress_marker (attempt_text options w n) = true.

(** The attempt decodes and prints something, but none of the three
    terminal markers. *)
Definition failed_attempt (n : nat) : Prop :=
  attempt_decodes options w n = true
  /\ attempt_text options w n <> ""
  /\ PyStr.contains progress_marker (attempt_text options w n) = false
  /\ PyStr.contains no_overlap_msg (attempt_text options w n) = false
  /\ PyStr.contains (empty_msg (output options)) (attempt_text options w n) = false.

End AttemptKinds.

(** The state a completed setup leaves. *)
Definition setup_state (o : Options) (w : World) (s : state)
    (gisdbase location gisrc : string) : state :=
  {| environ := <["GISRC" := gisrc +:+ "_" +:+ pretty (w_pid w)]> (with_defaults (environ s));
     trace := trace s ++ setup_events o w gisdbase location gisrc |}.

(** ** The outcome of a run, from the attempts and the artifact lookup *)

Definition artifact_found (o : Options) (w : World) : bool :=
  PyStr.truthy (w_find_file w (output o) "raster" (newmapset o))
  || PyStr.truthy (w_find_file w (output o) "group" (newmapset o)).

(** The group is looked up only when no raster is found. *)
Definition lookup_events (o : Options) (w : World) : list event :=
  FindFile (output o) "raster" (newmapset o)
  :: (if PyStr.truthy (w_find_file w (output o) "raster" (newmapset o))
      then [] else [FindFile (output o) "group" (newmapset o)]).

Definition run_outcome (o : Options) (w : World) : result Z :=
  match retry_result o w with
  | Ok l => if artifact_found o w || noOverlap l then Ok 0%Z else Raise (SystemExit 1)
  | Raise e => Raise e
  | Diverged => Diverged
  end.

(** What is logged after the retry phase. *)
Definition closing_events (o : Options) (w : World) (gisrc : string) : list event :=
  match retry_result o w with
  | Ok l =>
    lookup_events o w
    ++ (if artifact_found o w || noOverlap l
        then [TryRemove (gisrc +:+ "_" +:+ pretty (w_pid w))]
        else [Fatal ("ERROR " +:+ output o)])
  | _ => []
  end.

(** The environment at exit: the pointer is put back on a normal return
    only. *)
Definition closing_environ (o : Options) (w : World) (gisrc : string)
    (env : gmap string string) : gmap string string :=
  match run_outcome o w with
  | Ok _ => <["GISRC" := gisrc]> env
  | _ => env
  end.

(** * Proofs *)

(** ** Running the monad *)

Lemma log_log s a b : log (log s a) b = log s (a ++ b).
Proof. unfold log; simpl. by rewrite app_assoc. Qed.

Lemma emit_log e s : emit e s = (Ok tt, log s [e]).
Proof. reflexivity. Qed.

Lemma emitted_log s evs : emitted s (log s evs) = evs.
Proof. unfold emitted, log; simpl. by rewrite drop_app_length. Qed.

Lemma bind_run {A B} (c : M A) (f : A -> M B) s :
  (c ≫= f) s =
  match c s with
  | (Ok a, s') => f a s'
  | (Raise e, s') => (Raise e, s')
  | (Diverged, s') => (Diverged, s')
  end.
Proof. reflexivity. Qed.

Lemma bind_ok {A B} (c : M A) (f : A -> M B) s a s' :
  c s = (Ok a, s') -> (c ≫= f) s = f a s'.
Proof. intros H. by rewrite bind_run, H. Qed.

Lemma bind_raise {A B} (c : M A) (f : A -> M B) s e s' :
  c s = (Raise e, s') -> (c ≫= f) s = (Raise e, s').
Proof. intros H. by rewrite bind_run, H. Qed.

Lemma ret_run {A} (a : A) s : ret a s = (Ok a, s).
Proof. reflexivity. Qed.

Lemma decode_run b s :
  decode b s = if PyStr.utf8_valid b then (Ok b, s) else (Raise UnicodeDecodeError, s).
Proof. unfold decode. by destruct (PyStr.utf8_valid b). Qed.

(** Run binds, [emit]s and [ret]s as far as they go. *)
Ltac run_steps :=
  repeat (first [rewrite bind_run | rewrite emit_log | rewrite ret_run];
          cbv beta iota).

(** Run a sequence of [emit]s that ends in [ret]. *)
Ltac run_emits :=
  repeat (rewrite bind_run, emit_log; cbv beta iota);
  rewrite ?log_log; reflexivity.

(** ** The table against the loop body *)

Lemma classify_total output_name budget text :
  exists r, classify output_name budget text = Some r.
Proof.
  unfold classify, precedence; simpl.
  repeat match goal with
         | |- context [if ?b then _ else _] => destruct b eqn:?; eauto
         end.
  destruct (bool_decide (text = "")); discriminate.
Qed.

Section BodyRun.

Variable options : Options.
Variable w : World.

(** [loop_body] computes exactly what the first matching rule of the table
    prescribes, provided both streams decode. *)
Lemma loop_body_run kwargsstr l s :
  let n := S (tries l) in
  let cmd := import_cmd kwargsstr in
  let resp := w_import w n cmd in
  let budget := (n <? max_tries)%nat in
  let text := resp.1 +:+ resp.2 in
  loop_body options w kwargsstr l s =
  if PyStr.utf8_valid resp.1 && PyStr.utf8_valid resp.2 then
    match classify (output options) budget text with
    | Some r =>
      (Ok {| tries := n; next_try := rule_retries budget r;
             noOverlap := rule_sets_flag r || noOverlap l |},
       log s (Popen cmd :: rule_events (input options) n budget text r))
    | None => (Diverged, s)
    end
  else (Raise UnicodeDecodeError, log s [Popen cmd]).
Proof.
  intros n cmd resp budget text.
  unfold loop_body. fold n cmd resp budget.
  rewrite bind_run, emit_log, bind_run, decode_run.
  destruct (PyStr.utf8_valid resp.1); simpl; [|done].
  rewrite bind_run, decode_run.
  destruct (PyStr.utf8_valid resp.2); simpl; [|done].
  change (("" +:+ resp.1) +:+ resp.2) with text.
  unfold classify, precedence, retry_suffix; simpl List.find.
  destruct (PyStr.contains progress_marker text); simpl.
  { by destruct l. }
  destruct (PyStr.contains no_overlap_msg text); simpl.
  { run_emits. }
  destruct (PyStr.contains (empty_msg (output options)) text); simpl.
  { run_emits. }
  destruct (PyStr.contains "cpl_vsil_gzip.cpp" text); simpl.
  - destruct budget; simpl.
    { run_emits. }
    destruct (PyStr.contains "503" text); simpl.
    { run_emits. }
    destruct (bool_decide (text = "")); simpl.
    { done. }
    run_emits.
  - destruct (PyStr.contains "503" text); simpl.
    { destruct budget; run_emits. }
    destruct (bool_decide (text = "")); simpl.
    { done. }
    destruct budget; run_emits.
Qed.

End BodyRun.

(** ** What each rule emits *)

Lemma rule_events_io inp n budget text r :
  List.filter is_io (rule_events inp n budget text r) =
  if rule_retries budget r then [Sleep 10] else [].
Proof. destruct r, budget; reflexivity. Qed.

Lemma rule_events_no_fatal inp n budget text r :
  List.filter is_fatal (rule_events inp n budget text r) = [].
Proof. destruct r, budget; reflexivity. Qed.

Lemma classify_matches output_name budget text r :
  classify output_name budget text = Some r ->
  rule_matches output_name budget text r = true.
Proof. intros H. by apply List.find_some in H as [_ ?]. Qed.

(** A rule asks for another pass only while attempts remain. *)
Lemma retry_needs_budget output_name budget text r :
  classify output_name budget text = Some r ->
  rule_retries budget r = true -> budget = true.
Proof.
  intros Hc Hr. apply classify_matches in Hc.
  destruct r; simpl in *; try done.
  by apply andb_true_iff in Hc as [_ ?].
Qed.

Lemma filter_popen_io evs :
  List.filter is_popen (List.filter is_io evs) = List.filter is_popen evs.
Proof.
  induction evs as [|e evs IH]; [done|].
  destruct e; simpl; by rewrite ?IH.
Qed.

Lemma ladder_popens cmd k :
  List.length (List.filter is_popen (ladder cmd k)) = S k.
Proof. induction k as [|k IH]; simpl; [done|]. by rewrite IH. Qed.

(** ** The loop *)

Section LoopRun.

Variable options : Options.
Variable w : World.

Lemma while_pass fuel kwargsstr l s :
  next_try l = true ->
  while_next_try options w (S fuel) kwargsstr l s =
  (loop_body options w kwargsstr l ≫= while_next_try options w fuel kwargsstr) s.
Proof. intros H. simpl. by rewrite H. Qed.

Lemma while_stop fuel kwargsstr l s :
  next_try l = false -> while_next_try options w fuel kwargsstr l s = (Ok l, s).
Proof. intros H. destruct fuel; simpl; by rewrite H. Qed.

(** The loop ends within the budget, whatever the tool prints; it either
    returns with [next_try] cleared or stops at a stream that does not
    decode.  Its attempts and sleeps form a [ladder]. *)
Lemma while_next_try_run kwargsstr fuel : forall l s,
  max_tries <= tries l + fuel -> 1 <= fuel -> next_try l = true ->
  exists r evs k,
    while_next_try options w fuel kwargsstr l s = (r, log s evs)
    /\ ((exists l', r = Ok l' /\ next_try l' = false /\ tries l' = tries l + S k)
        \/ r = Raise UnicodeDecodeError)
    /\ List.filter is_io evs = ladder (import_cmd kwargsstr) k
    /\ k <= max_tries - S (tries l)
    /\ List.filter is_fatal evs = [].
Proof.
  induction fuel as [|fuel IH]; intros l s Hfuel Hpos Hnext; [lia|].
  simpl. rewrite Hnext, bind_run, loop_body_run.
  set (n := S (tries l)). set (cmd := import_cmd kwargsstr).
  set (resp := w_import w n cmd). set (budget := (n <? max_tries)%nat).
  set (text := resp.1 +:+ resp.2).
  destruct (PyStr.utf8_valid resp.1 && PyStr.utf8_valid resp.2).
  2:{ exists (Raise UnicodeDecodeError), [Popen cmd], 0. repeat split; auto with lia. }
  destruct (classify_total (output options) budget text) as [r Hr]. rewrite Hr.
  set (l1 := {| tries := n; next_try := _; noOverlap := _ |}).
  set (evs1 := Popen cmd :: _).
  assert (Hio1 : List.filter is_io evs1 =
                 Popen cmd :: if rule_retries budget r then [Sleep 10] else []).
  { unfold evs1; simpl. by rewrite rule_events_io. }
  assert (Hf1 : List.filter is_fatal evs1 = []).
  { unfold evs1; simpl. by rewrite rule_events_no_fatal. }
  destruct (rule_retries budget r) eqn:Hretry.
  - assert (Hb : n < max_tries).
    { apply Nat.ltb_lt. eapply retry_needs_budget; eauto. }
    destruct (IH l1 (log s evs1)) as (r' & evs & k & Hrun & Hres & Hio & Hk & Hfat).
    + unfold l1; simpl. unfold n. lia.
    + unfold n in Hb. lia.
    + done.
    + exists r', (evs1 ++ evs)%list, (S k). rewrite Hrun, log_log.
      split; [done|]. split; [|split; [|split]].
      * destruct Hres as [(l' & -> & ? & Ht) | -> ]; [left|by right].
        exists l'. repeat split; auto. unfold l1 in Ht; simpl in Ht. unfold n in Ht. lia.
      * by rewrite List.filter_app, Hio1, Hio.
      * unfold l1 in Hk; cbn [tries] in Hk. unfold n in Hb, Hk. unfold max_tries in *. lia.
      * by rewrite List.filter_app, Hf1, Hfat.
  - rewrite while_stop by done.
    exists (Ok l1), evs1, 0. split; [done|]. split; [|split; [|split]]; auto with lia.
    left. exists l1. repeat split; auto. simpl. unfold n. lia.
Qed.

End LoopRun.

(** The retry phase, from the locals [main] starts it with. *)
Lemma import_with_retry_run options flags w fuel s :
  max_tries <= fuel ->
  exists r evs k,
    import_with_retry options flags w fuel s = (r, log s evs)
    /\ ((exists l, r = Ok l /\ next_try l = false /\ tries l = S k)
        \/ r = Raise UnicodeDecodeError)
    /\ List.filter is_io evs = ladder (command_line options) k
    /\ k <= 9
    /\ List.filter is_fatal evs = [].
Proof.
  intros Hfuel. unfold import_with_retry.
  rewrite bind_run, emit_log.
  set (l0 := {| tries := 0; next_try := true; noOverlap := false |}).
  destruct (while_next_try_run options w
              (build_kwargsstr (build_kwargs (options_items options))) fuel l0
              (log s [Message "Running r.import ..."]))
    as (r & evs & k & Hrun & Hres & Hio & Hk & Hfat); simpl; auto.
  { unfold max_tries in *. lia. }
  exists r, (Message "Running r.import ..." :: evs), k.
  rewrite log_log in Hrun. rewrite Hrun.
  repeat split; auto; unfold max_tries in Hk; simpl in Hk; lia.
Qed.

(** C1. Whatever the import tool prints on each attempt, the retry loop
    ends (ten passes of fuel are enough), it runs the [r.import] command at
    most ten times, and its attempts and sleeps are one attempt followed by
    at most nine times a sleep of exactly ten units and another attempt. *)
Theorem retry_loop_bounded options flags w fuel s :
  max_tries <= fuel ->
  exists r s' k,
    import_with_retry options flags w fuel s = (r, s')
    /\ r <> Diverged
    /\ List.filter is_io (emitted s s') = ladder (command_line options) k
    /\ k <= 9
    /\ List.length (List.filter is_popen (emitted s s')) = S k
    /\ List.length (List.filter is_popen (emitted s s')) <= 10.
Proof.
  intros Hfuel.
  destruct (import_with_retry_run options flags w fuel s Hfuel)
    as (r & evs & k & Hrun & Hres & Hio & Hk & _).
  exists r, (log s evs), k. rewrite emitted_log.
  assert (Hp : List.length (List.filter is_popen evs) = S k).
  { by rewrite <- filter_popen_io, Hio, ladder_popens. }
  repeat split; auto.
  - destruct Hres as [(l' & -> & _) | -> ]; discriminate.
  - rewrite Hp. lia.
Qed.

(** A run where the first two attempts hit the transient token. *)
Lemma retry_loop_bounded_witness :
  max_tries <= 12
  /\ exists r s' k,
    import_with_retry Ex.opts Ex.no_flags (Ex.world Ex.transient_twice "cell/a") 12 Ex.start
    = (r, s')
    /\ r <> Diverged
    /\ List.filter is_io (emitted Ex.start s') = ladder (command_line Ex.opts) k
    /\ k <= 9
    /\ List.length (List.filter is_popen (emitted Ex.start s')) = S k
    /\ List.length (List.filter is_popen (emitted Ex.start s')) <= 10.
Proof.
  assert (H : max_tries <= 12) by (unfold max_tries; lia).
  split; [exact H|]. exact (retry_loop_bounded _ _ _ _ _ H).
Defined.

(** ** The order of precedence *)

(** [List.find] returns the first element that satisfies the test. *)
Lemma find_first {A} (f : A -> bool) (l : list A) (x : A) :
  List.find f l = Some x ->
  exists before after,
    l = (before ++ x :: after)%list
    /\ Forall (fun y => f y = false) before
    /\ f x = true.
Proof.
  induction l as [|y l IH]; simpl; [done|].
  destruct (f y) eqn:Hy.
  - intros [= ->]. exists [], l. by repeat split.
  - intros (before & after & -> & Hb & Hx)%IH.
    exists (y :: before), after. repeat split; auto.
Qed.

(** C2. After an attempt whose two streams decode, the text blob is
    standard output followed by standard error, and the pass through the
    loop body does what the first matching rule of the seven, in the stated
    order of precedence, prescribes: no earlier rule matches the blob, the
    rule decides whether the loop goes round again, what is logged and
    whether the no-overlap flag is set. *)
Theorem classification_precedence options w kwargsstr l s :
  let n := S (tries l) in
  let cmd := import_cmd kwargsstr in
  let budget := (n <? max_tries)%nat in
  let text := (w_import w n cmd).1 +:+ (w_import w n cmd).2 in
  PyStr.utf8_valid (w_import w n cmd).1 = true ->
  PyStr.utf8_valid (w_import w n cmd).2 = true ->
  exists r before after,
    precedence = (before ++ r :: after)%list
    /\ Forall (fun r' => rule_matches (output options) budget text r' = false) before
    /\ rule_matches (output options) budget text r = true
    /\ loop_body options w kwargsstr l s =
       (Ok {| tries := n; next_try := rule_retries budget r;
              noOverlap := rule_sets_flag r || noOverlap l |},
        log s (Popen cmd :: rule_events (input options) n budget text r)).
Proof.
  intros n cmd budget text H1 H2.
  destruct (classify_total (output options) budget text) as [r Hr].
  destruct (find_first _ _ _ Hr) as (before & after & Hp & Hb & Hm).
  exists r, before, after. repeat split; auto.
  rewrite loop_body_run. fold n cmd budget text. by rewrite H1, H2, Hr.
Qed.

(** The third attempt of [Ex.transient_twice] prints the progress ladder. *)
Lemma classification_precedence_witness :
  let l := {| tries := 2; next_try := true; noOverlap := false |} in
  let w := Ex.world Ex.transient_twice "" in
  let cmd := command_line Ex.opts in
  PyStr.utf8_valid (w_import w 3 cmd).1 = true
  /\ PyStr.utf8_valid (w_import w 3 cmd).2 = true
  /\ exists r before after,
       precedence = (before ++ r :: after)%list
       /\ Forall (fun r' => rule_matches "a" true progress_marker r' = false) before
       /\ rule_matches "a" true progress_marker r = true
       /\ loop_body Ex.opts w (build_kwargsstr (build_kwargs (options_items Ex.opts))) l Ex.start =
          (Ok {| tries := 3; next_try := rule_retries true r;
                 noOverlap := rule_sets_flag r || false |},
           log Ex.start (Popen cmd :: rule_events "a.tif" 3 true progress_marker r)).
Proof.
  intros l w cmd.
  assert (H1 : PyStr.utf8_valid (w_import w 3 cmd).1 = true) by reflexivity.
  assert (H2 : PyStr.utf8_valid (w_import w 3 cmd).2 = true) by reflexivity.
  split; [exact H1|]. split; [exact H2|].
  exact (classification_precedence Ex.opts w _ l Ex.start H1 H2).
Defined.

(** ** The workspace setup only talks to the session *)

Lemma session_only_ret {A} (a : A) : session_only (mret a : M A).
Proof. intros s. exists (environ s), []. rewrite app_nil_r. by destruct s. Qed.

Lemma session_only_raise {A} k : session_only (raise (KeyError k) : M A).
Proof. intros s. exists (environ s), []. rewrite app_nil_r. by destruct s. Qed.

Lemma session_only_bind {A B} (c : M A) (f : A -> M B) :
  session_only c -> (forall a, session_only (f a)) -> session_only (c ≫= f).
Proof.
  intros Hc Hf s. rewrite bind_run.
  destruct (Hc s) as (env1 & evs1 & Hs1 & Hev1 & Hr1).
  destruct (c s) as [[a|e|] s1]; simpl in *; try done.
  - destruct (Hf a s1) as (env2 & evs2 & Hs2 & Hev2 & Hr2).
    exists env2, (evs1 ++ evs2)%list. rewrite Hs2, Hs1; simpl.
    rewrite <- app_assoc, forallb_app, Hev1, Hev2. subst s1. by repeat split.
  - exists env1, evs1. by repeat split.
Qed.

Lemma session_only_emit e : is_session_event e = true -> session_only (emit e).
Proof. intros He s. exists (environ s), [e]. simpl. by rewrite He. Qed.

Lemma session_only_getitem {V} (d : gmap string V) k : session_only (getitem d k).
Proof.
  unfold getitem. destruct (d !! k); [apply session_only_ret|apply session_only_raise].
Qed.

Lemma session_only_delitem {V} (d : gmap string V) k : session_only (delitem k d).
Proof.
  unfold delitem. destruct (d !! k); [apply session_only_ret|apply session_only_raise].
Qed.

Lemma session_only_environ_get k : session_only (environ_get k).
Proof. intros s. unfold environ_get. apply session_only_getitem. Qed.

Lemma session_only_environ_set k v : session_only (environ_set k v).
Proof. intros s. eexists _, []. simpl. by rewrite app_nil_r. Qed.

Lemma session_only_environ_update kvs : session_only (environ_update kvs).
Proof. intros s. eexists _, []. simpl. by rewrite app_nil_r. Qed.

Create HintDb session discriminated.
#[local] Hint Resolve session_only_ret session_only_raise session_only_getitem
  session_only_delitem session_only_environ_get session_only_environ_set
  session_only_environ_update : session.

Ltac session_steps :=
  repeat first
    [ apply session_only_bind; [|intros ?]
    | apply session_only_emit; reflexivity
    | solve [auto with session]
    | match goal with
      | |- session_only (if ?b then _ else _) => destruct b
      | |- session_only (match ?x with _ => _ end) => destruct x
      end ].

Lemma workspace_setup_session_only options w : session_only (workspace_setup options w).
Proof. unfold workspace_setup, ret. session_steps. Qed.

(** ** The verification step *)

Lemma truthy_false s : PyStr.truthy s = false <-> s = "".
Proof. by destruct s. Qed.

Lemma verification_run options w l s :
  let name := output options in
  let mapset := newmapset options in
  verification options w l s =
  if PyStr.truthy (w_find_file w name "raster" mapset)
  then (Ok tt, log s [FindFile name "raster" mapset])
  else if PyStr.truthy (w_find_file w name "group" mapset)
  then (Ok tt, log s [FindFile name "raster" mapset; FindFile name "group" mapset])
  else if noOverlap l
  then (Ok tt, log s [FindFile name "raster" mapset; FindFile name "group" mapset])
  else (Raise (SystemExit 1),
        log s [FindFile name "raster" mapset; FindFile name "group" mapset;
               Fatal ("ERROR " +:+ name)]).
Proof.
  intros name mapset. unfold verification, fatal. fold name mapset.
  run_steps.
  destruct (PyStr.truthy (w_find_file w name "raster" mapset)); [done|].
  run_steps.
  destruct (PyStr.truthy (w_find_file w name "group" mapset)).
  { by rewrite log_log. }
  destruct (noOverlap l).
  { by rewrite log_log. }
  run_steps. by rewrite !log_log.
Qed.

(** ** The whole of [main] *)

Lemma session_no_fatal evs :
  forallb is_session_event evs = true -> List.filter is_fatal evs = [].
Proof.
  induction evs as [|e evs IH]; simpl; [done|].
  intros [He Hevs]%andb_true_iff. destruct e; try done; simpl; auto.
Qed.

Lemma session_no_popen evs :
  forallb is_session_event evs = true -> List.filter is_popen evs = [].
Proof.
  induction evs as [|e evs IH]; simpl; [done|].
  intros [He Hevs]%andb_true_iff. destruct e; try done; simpl; auto.
Qed.

Lemma cleanup_run gisrc newgisrc s :
  cleanup gisrc newgisrc s =
  (Ok 0%Z, {| environ := <["GISRC" := gisrc]> (environ s);
              trace := trace s ++ [TryRemove newgisrc] |}).
Proof. reflexivity. Qed.

Lemma emitted_trace s s' evs : trace s' = trace s ++ evs -> emitted s s' = evs.
Proof. intros H. unfold emitted. by rewrite H, drop_app_length. Qed.

(** Every way [main] can end: a [KeyError] during the setup, a stream that
    does not decode, a normal return, or the fatal error of the
    verification step. *)
Lemma main_run options flags w s :
  exists r s' evs,
    main options flags w s = (r, s') /\ trace s' = trace s ++ evs /\
    ((exists k, r = Raise (KeyError k)
        /\ (workspace_setup options w s).1 = Raise (KeyError k)
        /\ List.filter is_fatal evs = [])
     \/ exists gisrc s1, workspace_setup options w s = (Ok gisrc, s1) /\
        ((r = Raise UnicodeDecodeError
            /\ (import_with_retry options flags w max_tries s1).1 = Raise UnicodeDecodeError
            /\ List.filter is_fatal evs = [])
         \/ exists l s2, import_with_retry options flags w max_tries s1 = (Ok l, s2) /\
            ((r = Ok 0%Z
                /\ ~ (artifact_missing options w /\ noOverlap l = false)
                /\ List.filter is_fatal evs = []
                /\ environ s' = <["GISRC" := gisrc]> (environ s2))
             \/ (r = Raise (SystemExit 1)
                /\ artifact_missing options w /\ noOverlap l = false
                /\ List.filter is_fatal evs = [Fatal ("ERROR " +:+ output options)]
                /\ environ s' = environ s2)))).
Proof.
  unfold main, main_fuel.
  destruct (workspace_setup options w s) as [r0 s1] eqn:Hsetup.
  destruct (workspace_setup_session_only options w s) as (env1 & evs1 & Hs1 & Hev1 & Hr1).
  rewrite Hsetup in Hs1, Hr1; simpl in Hs1, Hr1.
  pose proof (session_no_fatal _ Hev1) as Hfat1.
  destruct r0 as [gisrc|e|]; [|destruct e; try done|done].
  2:{ rewrite (bind_raise _ _ _ _ _ Hsetup).
      exists (Raise (KeyError key)), s1, evs1. subst s1. repeat split; auto.
      left. exists key. by repeat split. }
  rewrite (bind_ok _ _ _ _ _ Hsetup).
  destruct (import_with_retry_run options flags w max_tries s1 (le_n _))
    as (r1 & evs2 & k & Hrun & Hres & _ & _ & Hfat2).
  destruct Hres as [(l & -> & _) | -> ].
  2:{ rewrite (bind_raise _ _ _ _ _ Hrun).
      exists (Raise UnicodeDecodeError), (log s1 evs2), (evs1 ++ evs2)%list.
      split; [done|]. split; [simpl; rewrite Hs1; simpl; by rewrite app_assoc|].
      right. exists gisrc, s1. split; [done|]. left.
      rewrite Hrun, List.filter_app, Hfat1, Hfat2. by repeat split. }
  rewrite (bind_ok _ _ _ _ _ Hrun), bind_run, verification_run.
  set (name := output options). set (mapset := newmapset options).
  destruct (PyStr.truthy (w_find_file w name "raster" mapset)) eqn:Hraster.
  { rewrite cleanup_run.
    eexists _, _, (evs1 ++ evs2 ++ [_; _])%list. split; [done|]. split.
    { simpl. rewrite Hs1; simpl. by rewrite <- !app_assoc. }
    right. exists gisrc, s1. split; [done|]. right. exists l, (log s1 evs2).
    split; [done|]. left. split; [done|]. split.
    { intros [[Hr _] _]. fold name mapset in Hr. by rewrite Hr in Hraster. }
    split; [|done]. by rewrite !List.filter_app, Hfat1, Hfat2. }
  destruct (PyStr.truthy (w_find_file w name "group" mapset)) eqn:Hgroup.
  { rewrite cleanup_run.
    eexists _, _, (evs1 ++ evs2 ++ [_; _; _])%list. split; [done|]. split.
    { simpl. rewrite Hs1; simpl. by rewrite <- !app_assoc. }
    right. exists gisrc, s1. split; [done|]. right. exists l, (log s1 evs2).
    split; [done|]. left. split; [done|]. split.
    { intros [[_ Hg] _]. fold name mapset in Hg. by rewrite Hg in Hgroup. }
    split; [|done]. by rewrite !List.filter_app, Hfat1, Hfat2. }
  destruct (noOverlap l) eqn:Hflag.
  { rewrite cleanup_run.
    eexists _, _, (evs1 ++ evs2 ++ [_; _; _])%list. split; [done|]. split.
    { simpl. rewrite Hs1; simpl. by rewrite <- !app_assoc. }
    right. exists gisrc, s1. split; [done|]. right. exists l, (log s1 evs2).
    split; [done|]. left. split; [done|]. split.
    { intros [_ Hf]. by rewrite Hf in Hflag. }
    split; [|done]. by rewrite !List.filter_app, Hfat1, Hfat2. }
  eexists _, _, (evs1 ++ evs2 ++ [_; _; _])%list. split; [done|]. split.
  { simpl. rewrite Hs1; simpl. by rewrite <- !app_assoc. }
  right. exists gisrc, s1. split; [done|]. right. exists l, (log s1 evs2).
  split; [done|]. right. split; [done|].
  apply truthy_false in Hraster, Hgroup. split; [by split|]. split; [done|]. split; [|done].
  by rewrite !List.filter_app, Hfat1, Hfat2.
Qed.

(** ** Reading the setup backwards *)

Lemma getitem_run {V} (d : gmap string V) k s :
  getitem d k s = match d !! k with
                  | Some v => (Ok v, s)
                  | None => (Raise (KeyError k), s)
                  end.
Proof. unfold getitem. by destruct (d !! k). Qed.

Lemma delitem_run {V} (d : gmap string V) k s :
  delitem k d s = match d !! k with
                  | Some _ => (Ok (delete k d), s)
                  | None => (Raise (KeyError k), s)
                  end.
Proof. unfold delitem. by destruct (d !! k). Qed.

Lemma environ_get_run k s :
  environ_get k s = match environ s !! k with
                    | Some v => (Ok v, s)
                    | None => (Raise (KeyError k), s)
                    end.
Proof. unfold environ_get. apply getitem_run. Qed.

(** What a completed setup has read, left in the environment and done. *)
Lemma workspace_setup_ok_inv options w s gisrc s1 :
  workspace_setup options w s = (Ok gisrc, s1) ->
  let newgisrc := gisrc +:+ "_" +:+ pretty (w_pid w) in
  environ s !! "GISRC" = Some gisrc
  /\ environ s1 !! "GISRC" = Some newgisrc
  /\ exists gisdbase location,
       w_gisenv w !! "GISDBASE" = Some gisdbase
       /\ w_gisenv w !! "LOCATION_NAME" = Some location
       /\ trace s1 = trace s ++
            [ Message ("New mapset: <" +:+ newmapset options +:+ ">");
              TryRmdir (PyStr.path_join gisdbase [location; newmapset options]);
              TryRemove newgisrc; CopyFile gisrc newgisrc ]
            ++ (if decide (extent options = "region") then [ReadRegion] else [])
            ++ [ Message ("GISRC: <" +:+ newgisrc +:+ ">");
                 GMapset "c" (newmapset options) ]
            ++ (if decide (extent options = "region")
                then [GRegion "p" (strip (w_region w))] else [])
       /\ (extent options = "region" ->
           Forall (fun k => is_Some (w_region w !! k)) stripped_keys).
Proof.
  unfold workspace_setup. cbv zeta.
  rewrite bind_run. unfold environ_update at 1. cbv beta iota.
  set (s0 := {| environ := _; trace := trace s |}).
  assert (Hs0 : trace s0 = trace s) by done.
  assert (Henv0 : environ s0 !! "GISRC" = environ s !! "GISRC").
  { unfold s0; simpl. by rewrite !lookup_insert_ne. }
  clearbody s0.
  rewrite bind_run, getitem_run.
  destruct (w_gisenv w !! "GISDBASE") as [gisdbase|] eqn:Hdb; [|done].
  rewrite bind_run, getitem_run.
  destruct (w_gisenv w !! "LOCATION_NAME") as [location|] eqn:Hloc; [|done].
  run_steps. rewrite environ_get_run. simpl environ. rewrite Henv0.
  destruct (environ s !! "GISRC") as [gisrc'|] eqn:Hrc; [|done].
  run_steps. unfold environ_set at 1. cbv beta iota. run_steps.
  rewrite !log_log. simpl environ. simpl trace.
  destruct (decide (extent options = "region")) as [Hext|Hext].
  - run_steps. rewrite environ_get_run. simpl environ.
    rewrite lookup_insert_eq. run_steps.
    rewrite delitem_run.
    destruct (w_region w !! "cells") eqn:K1; [|done]. run_steps. rewrite delitem_run.
    destruct (delete "cells" (w_region w) !! "rows") eqn:K2; [|done].
    run_steps. rewrite delitem_run.
    destruct (delete "rows" _ !! "cols") eqn:K3; [|done]. run_steps. rewrite delitem_run.
    destruct (delete "cols" _ !! "zone") eqn:K4; [|done]. run_steps. rewrite delitem_run.
    destruct (delete "zone" _ !! "projection") eqn:K5; [|done]. run_steps.
    intros [= <- <-]. simpl. rewrite lookup_insert_eq.
    repeat split; auto. exists gisdbase, location. repeat split; auto.
    { by rewrite Hs0, <- !app_assoc. }
    intros _.
    rewrite !lookup_delete_ne in K2 by done. rewrite !lookup_delete_ne in K3 by done.
    rewrite !lookup_delete_ne in K4 by done. rewrite !lookup_delete_ne in K5 by done.
    unfold stripped_keys. repeat constructor; eauto.
  - run_steps. rewrite environ_get_run. simpl environ.
    rewrite lookup_insert_eq. run_steps.
    intros [= <- <-]. simpl. rewrite lookup_insert_eq.
    repeat split; auto. exists gisdbase, location. repeat split; auto.
    { by rewrite Hs0, <- !app_assoc. }
    by intros ?.
Qed.

(** ** The session-state pointer *)

Lemma append_length a b : String.length (a +:+ b) = String.length a + String.length b.
Proof. induction a as [|c a IH]; simpl; [done|]. by rewrite IH. Qed.

(** The private session file is never the session file itself. *)
Lemma append_cons_neq a c b : a +:+ String c b <> a.
Proof.
  intros H. apply (f_equal String.length) in H.
  rewrite append_length in H. cbn [String.length] in H. lia.
Qed.

Lemma newgisrc_fresh gisrc (pid : N) : gisrc +:+ "_" +:+ pretty pid <> gisrc.
Proof. exact (append_cons_neq gisrc "_"%char (pretty pid)). Qed.

(** On a normal return the pointer holds its value from before the run; at
    the fatal error it still holds the path of the private file. *)
Lemma gisrc_after_main options flags w s :
  let r := (main options flags w s).1 in
  let s' := (main options flags w s).2 in
  (r = Ok 0%Z -> environ s' !! "GISRC" = environ s !! "GISRC")
  /\ (r = Raise (SystemExit 1) ->
      exists gisrc, environ s !! "GISRC" = Some gisrc
        /\ environ s' !! "GISRC" = Some (gisrc +:+ "_" +:+ pretty (w_pid w))
        /\ environ s' !! "GISRC" <> environ s !! "GISRC").
Proof.
  intros r s'.
  destruct (main_run options flags w s) as (r0 & s0 & evs & Hmain & _ & Hcases).
  unfold r, s'. rewrite Hmain; simpl. clear r s'.
  assert (Hloop : forall s1 l s2,
             import_with_retry options flags w max_tries s1 = (Ok l, s2) ->
             environ s2 = environ s1).
  { intros s1 l s2 H.
    destruct (import_with_retry_run options flags w max_tries s1 (le_n _))
      as (? & ? & ? & Hrun & _).
    rewrite Hrun in H. by injection H as _ <-. }
  split; intros ->.
  - destruct Hcases as [(k & ? & _) | (gisrc & s1 & Hsetup & Hcases)]; [done|].
    destruct Hcases as [(? & _) | (l & s2 & Hl & Hcases)]; [done|].
    destruct Hcases as [(_ & _ & _ & ->) | (? & _)]; [|done].
    apply workspace_setup_ok_inv in Hsetup as (-> & _).
    by rewrite lookup_insert_eq.
  - destruct Hcases as [(k & ? & _) | (gisrc & s1 & Hsetup & Hcases)]; [done|].
    destruct Hcases as [(? & _) | (l & s2 & Hl & Hcases)]; [done|].
    destruct Hcases as [(? & _) | (_ & _ & _ & _ & ->)]; [done|].
    apply Hloop in Hl as ->.
    apply workspace_setup_ok_inv in Hsetup as (Hold & Hnew & _).
    exists gisrc. rewrite Hold, Hnew. repeat split; auto.
    intros [= H]. by apply newgisrc_fresh in H.
Qed.

(** C4, at an input where the claim fails: the tool prints nothing and
    the lookup finds no artifact.  The worker ends in the fatal error with
    the pointer still set to the private file [/tmp/grass/rc_4242], not to
    the value [/tmp/grass/rc] it had before the run: lines 311-312 are not
    reached. *)
Theorem gisrc_not_restored_on_fatal :
  let run := main Ex.opts Ex.no_flags (Ex.world (fun _ => "") "") Ex.start in
  run.1 = Raise (SystemExit 1)
  /\ exit_status run.1 = Some 1%Z
  /\ environ Ex.start !! "GISRC" = Some "/tmp/grass/rc"
  /\ environ run.2 !! "GISRC" = Some "/tmp/grass/rc_4242"
  /\ List.filter is_fatal (emitted Ex.start run.2) = [Fatal "ERROR a"].
Proof. vm_compute. repeat split. Qed.

(** C5, at an input where the claim fails: with the flags [e] and [o]
    set, [flagstr] is ["eo"], yet the one command that is run carries the
    options only; the command is the same whatever the flags are. *)
Theorem flags_not_forwarded :
  let run := main Ex.opts Ex.flags_eo (Ex.world (fun _ => "") "cell/a") Ex.start in
  build_flagstr (flags_items Ex.flags_eo) = "eo"
  /\ List.filter is_popen (emitted Ex.start run.2) =
     [ Popen ("r.import --q  input='a.tif' memory='300' output='a'"
              +:+ " resample='nearest' extent='input' resolution='estimated'") ]
  /\ forall flags' w s, main Ex.opts flags' w s = main Ex.opts Ex.flags_eo w s.
Proof.
  intros run. split; [|split].
  - vm_compute. reflexivity.
  - vm_compute. reflexivity.
  - intros flags' w s. reflexivity.
Qed.

(** C7, at an input where the claim fails: the tool reports that the
    reprojected raster is empty and no artifact exists.  The loop stops
    after one attempt with the no-data warning, and the verification step
    then raises the fatal error: exit status 1. *)
Theorem empty_result_is_fatal :
  let w := Ex.world (fun _ => "ERROR: The reprojected raster <a> is empty") "" in
  let run := main Ex.opts Ex.no_flags w Ex.start in
  artifact_missing Ex.opts w
  /\ run.1 = Raise (SystemExit 1)
  /\ exit_status run.1 = Some 1%Z
  /\ List.length (List.filter is_popen (emitted Ex.start run.2)) = 1
  /\ List.filter is_warning (emitted Ex.start run.2) =
     [ Warning "Only no-data values found in current region for input raster <a.tif>" ]
  /\ List.filter is_fatal (emitted Ex.start run.2) = [Fatal "ERROR a"].
Proof. vm_compute. repeat split. Qed.

(** ** The no-overlap outcome *)

Lemma session_no_warning evs :
  forallb is_session_event evs = true -> List.filter is_warning evs = [].
Proof.
  induction evs as [|e evs IH]; simpl; [done|].
  intros [He Hevs]%andb_true_iff. destruct e; try done; simpl; auto.
Qed.

(** C6, the claim as stated fails: the first attempt prints the progress
    ladder and the no-overlap message, the success rule comes first, so no
    warning is logged, the flag stays clear, and with no artifact the
    worker ends in the fatal error. *)
Lemma no_overlap_first_attempt_counterexample :
  let w := Ex.world (fun _ => Ex.ladder_and_no_overlap) "" in
  let run := main Ex.opts Ex.no_flags w Ex.start in
  PyStr.contains no_overlap_msg
    ((w_import w 1 (command_line Ex.opts)).1 +:+ (w_import w 1 (command_line Ex.opts)).2) = true
  /\ run.1 = Raise (SystemExit 1)
  /\ exit_status run.1 <> Some 0%Z
  /\ List.filter is_warning (emitted Ex.start run.2) = [].
Proof. vm_compute. repeat split. discriminate. Qed.

(** C6, amended. If the first attempt is reached, its output decodes,
    contains the no-overlap message and does not contain the progress
    ladder, then the import tool is run exactly once, the no-overlap
    warning naming the input is the only warning, and the worker returns 0,
    whatever the artifact lookup answers. *)
Theorem no_overlap_first_attempt options flags w s gisrc s1 :
  let resp := w_import w 1 (command_line options) in
  workspace_setup options w s = (Ok gisrc, s1) ->
  PyStr.utf8_valid resp.1 = true ->
  PyStr.utf8_valid resp.2 = true ->
  PyStr.contains no_overlap_msg (resp.1 +:+ resp.2) = true ->
  PyStr.contains progress_marker (resp.1 +:+ resp.2) = false ->
  exists s',
    main options flags w s = (Ok 0%Z, s')
    /\ exit_status (main options flags w s).1 = Some 0%Z
    /\ List.filter is_popen (emitted s s') = [Popen (command_line options)]
    /\ List.filter is_warning (emitted s s') =
       [ Warning ("Input raster map <" +:+ input options
                  +:+ "> does not overlap with current computational region") ].
Proof.
  intros resp Hsetup H1 H2 Hno Hladder.
  destruct (workspace_setup_session_only options w s) as (env1 & evs1 & Hs1 & Hev1 & _).
  rewrite Hsetup in Hs1; simpl in Hs1.
  pose proof (session_no_popen _ Hev1) as Hp1.
  pose proof (session_no_warning _ Hev1) as Hw1.
  assert (Hloop : import_with_retry options flags w max_tries s1 =
                  (Ok {| tries := 1; next_try := false; noOverlap := true |},
                   log s1 [ Message "Running r.import ..."; Popen (command_line options);
                            Warning ("Input raster map <" +:+ input options
                              +:+ "> does not overlap with current computational region") ])).
  { unfold import_with_retry. rewrite bind_run, emit_log. cbv beta iota zeta.
    change max_tries with (S 9). rewrite while_pass by done.
    rewrite bind_run, loop_body_run. cbn [tries].
    fold (command_line options). fold resp. rewrite H1, H2. cbn [andb].
    unfold classify, precedence. cbn [List.find rule_matches].
    rewrite Hladder, Hno. cbn [rule_retries rule_sets_flag rule_events orb].
    by rewrite while_stop, log_log. }
  assert (Hmain : exists evs3,
             main options flags w s =
             (Ok 0%Z, {| environ := <["GISRC" := gisrc]> (environ s1);
                         trace := trace s1 ++
                           [ Message "Running r.import ..."; Popen (command_line options);
                             Warning ("Input raster map <" +:+ input options
                               +:+ "> does not overlap with current computational region") ]
                           ++ evs3 |})
             /\ List.filter is_popen evs3 = [] /\ List.filter is_warning evs3 = []).
  { unfold main, main_fuel.
    rewrite (bind_ok _ _ _ _ _ Hsetup), (bind_ok _ _ _ _ _ Hloop), bind_run, verification_run.
    cbn [noOverlap].
    destruct (PyStr.truthy _); [|destruct (PyStr.truthy _)];
      rewrite cleanup_run; simpl; eexists;
      (split; [rewrite <- !app_assoc; reflexivity|done]). }
  destruct Hmain as (evs3 & Hmain & Hp3 & Hw3).
  eexists. split; [exact Hmain|]. rewrite Hmain. split; [done|].
  erewrite emitted_trace
    by (simpl; rewrite Hs1; simpl; rewrite <- !app_assoc; reflexivity).
  rewrite !List.filter_app, Hp1, Hw1. cbn [List.filter is_popen is_warning app].
  by rewrite Hp3, Hw3.
Qed.

(** The first attempt reports no overlap and no artifact exists. *)
Lemma no_overlap_first_attempt_witness :
  let w := Ex.world (fun _ => "WARNING: " +:+ no_overlap_msg) "" in
  exists s',
    main Ex.opts Ex.no_flags w Ex.start = (Ok 0%Z, s')
    /\ exit_status (main Ex.opts Ex.no_flags w Ex.start).1 = Some 0%Z
    /\ List.filter is_popen (emitted Ex.start s') = [Popen (command_line Ex.opts)]
    /\ List.filter is_warning (emitted Ex.start s') =
       [ Warning ("Input raster map <" +:+ input Ex.opts
                  +:+ "> does not overlap with current computational region") ].
Proof.
  intros w.
  refine (no_overlap_first_attempt Ex.opts Ex.no_flags w Ex.start "/tmp/grass/rc"
            (workspace_setup Ex.opts w Ex.start).2 _ _ _ _ _); vm_compute; reflexivity.
Defined.

(** ** The region carried into the new workspace *)

Lemma strip_lookup_stripped (reg : gmap string num) k :
  k ∈ stripped_keys -> strip reg !! k = None.
Proof.
  unfold stripped_keys, strip. intros Hk. rewrite !lookup_delete.
  repeat (apply elem_of_cons in Hk as [-> | Hk]; [by repeat case_decide|]).
  by apply elem_of_nil in Hk.
Qed.

Lemma strip_lookup_other (reg : gmap string num) k :
  k ∉ stripped_keys -> strip reg !! k = reg !! k.
Proof.
  unfold stripped_keys, strip. intros Hk. rewrite !lookup_delete.
  repeat (destruct (decide (_ = k)) as [<-|?];
          [exfalso; apply Hk;
           repeat first [apply list_elem_of_here | apply list_elem_of_further]|]).
  done.
Qed.

(** C8, the claim as stated fails on the number of fields: of the eleven
    fields of the captured region, five are missing from the region that is
    applied, not four. *)
Lemma region_strip_counterexample :
  let w := Ex.world (fun _ => "") "" in
  let s1 := (workspace_setup Ex.opts_region w Ex.start).2 in
  exists applied,
    applied_regions (emitted Ex.start s1) = [applied]
    /\ size (w_region w) = 11
    /\ size applied = 6
    /\ size (dom (w_region w) ∖ dom applied) <> 4.
Proof.
  intros w s1. exists (strip (w_region w)). split; [|split; [|split]].
  - vm_compute. reflexivity.
  - vm_compute. reflexivity.
  - vm_compute. reflexivity.
  - vm_compute. discriminate.
Qed.

(** C8, amended. When the setup completes with [extent] equal to
    ["region"], the region is read before the workspace switch and the one
    [g.region] call, made after the switch, is given the captured region
    without its five fields [cells], [rows], [cols], [zone] and
    [projection], all of which the captured region had; every other field
    is passed unchanged.  With [extent] equal to ["input"] the region is
    neither read nor applied. *)
Theorem region_carried_over options w s gisrc s1 :
  workspace_setup options w s = (Ok gisrc, s1) ->
  (extent options = "region" ->
     applied_regions (emitted s s1) = [strip (w_region w)]
     /\ (exists pre mid,
           emitted s s1 =
           pre ++ ReadRegion :: mid
               ++ [GMapset "c" (newmapset options); GRegion "p" (strip (w_region w))])
     /\ Forall (fun k => is_Some (w_region w !! k)) stripped_keys
     /\ (forall k, k ∈ stripped_keys -> strip (w_region w) !! k = None)
     /\ (forall k, k ∉ stripped_keys -> strip (w_region w) !! k = w_region w !! k))
  /\ (extent options = "input" ->
      applied_regions (emitted s s1) = [] /\ ReadRegion ∉ emitted s s1).
Proof.
  intros Hsetup.
  apply workspace_setup_ok_inv in Hsetup
    as (_ & _ & gisdbase & location & _ & _ & Htrace & Hkeys).
  apply emitted_trace in Htrace. rewrite Htrace. clear Htrace.
  split; intros Hext.
  - destruct (decide (extent options = "region")); [|done].
    split; [reflexivity|]. split.
    { eexists [_; _; _; _], [_]. reflexivity. }
    split; [by apply Hkeys|].
    split; [apply strip_lookup_stripped|apply strip_lookup_other].
  - destruct (decide (extent options = "region")) as [E|_].
    { by rewrite Hext in E. }
    split; [reflexivity|]. cbn [app].
    intros H. repeat (apply elem_of_cons in H as [H|H]; [discriminate H|]).
    by apply elem_of_nil in H.
Qed.

(** The caller's region of [Ex.region] is carried into [job1]. *)
Lemma region_carried_over_witness :
  let w := Ex.world (fun _ => "") "" in
  let s1 := (workspace_setup Ex.opts_region w Ex.start).2 in
  workspace_setup Ex.opts_region w Ex.start = (Ok "/tmp/grass/rc", s1)
  /\ (extent Ex.opts_region = "region" ->
      applied_regions (emitted Ex.start s1) = [strip (w_region w)]
      /\ (exists pre mid,
            emitted Ex.start s1 =
            pre ++ ReadRegion :: mid
                ++ [GMapset "c" (newmapset Ex.opts_region); GRegion "p" (strip (w_region w))])
      /\ Forall (fun k => is_Some (w_region w !! k)) stripped_keys
      /\ (forall k, k ∈ stripped_keys -> strip (w_region w) !! k = None)
      /\ (forall k, k ∉ stripped_keys -> strip (w_region w) !! k = w_region w !! k))
  /\ (extent Ex.opts_region = "input" ->
      applied_regions (emitted Ex.start s1) = [] /\ ReadRegion ∉ emitted Ex.start s1).
Proof.
  intros w s1.
  assert (H : workspace_setup Ex.opts_region w Ex.start = (Ok "/tmp/grass/rc", s1))
    by (vm_compute; reflexivity).
  split; [exact H|]. exact (region_carried_over Ex.opts_region w Ex.start _ s1 H).
Defined.

(** ** Substrings *)

Lemma chars_app a b : chars (a +:+ b) = chars a ++ chars b.
Proof. induction a as [|c a IH]; simpl; [done|]. by rewrite IH. Qed.

Lemma chars_inj a b : chars a = chars b -> a = b.
Proof.
  intros H. rewrite <- (string_of_list_ascii_of_string a), <- (string_of_list_ascii_of_string b).
  unfold chars in H. by rewrite H.
Qed.

Lemma prefix_split p s : String.prefix p s = true -> exists b, s = p +:+ b.
Proof.
  revert s. induction p as [|c p IH]; intros [|d s]; simpl; try done; eauto.
  destruct (ascii_dec c d) as [->|]; [|done].
  intros [b ->]%IH. eauto.
Qed.

Lemma contains_split needle hay :
  PyStr.contains needle hay = true -> exists a b, hay = a +:+ needle +:+ b.
Proof.
  induction hay as [|c hay IH]; cbn [PyStr.contains].
  - intros [b Hb]%prefix_split. exists "", b. done.
  - intros [H|H]%orb_true_iff.
    + apply prefix_split in H as [b Hb]. by exists "", b.
    + apply IH in H as (a & b & ->). by exists (String c a), b.
Qed.

Lemma occurrences_app c a b : occurrences c (a +:+ b) = occurrences c a + occurrences c b.
Proof. unfold occurrences. by rewrite chars_app, count_occ_app. Qed.

(** ** The empty-result rule and the output option *)

Lemma append_cons x (a b : string) : String x a +:+ b = String x (a +:+ b).
Proof. reflexivity. Qed.

Lemma prefix_append n b : String.prefix n (n +:+ b) = true.
Proof.
  induction n as [|c n IH]; [by destruct b|].
  rewrite append_cons. cbn [String.prefix]. by destruct (ascii_dec c c).
Qed.

Lemma contains_prefix n hay : String.prefix n hay = true -> PyStr.contains n hay = true.
Proof. intros H. destruct hay; cbn [PyStr.contains]; by rewrite H. Qed.

(** A blob that has the needle somewhere contains it. *)
Lemma contains_intro n a b : PyStr.contains n (a +:+ n +:+ b) = true.
Proof.
  induction a as [|c a IH].
  - change ("" +:+ n +:+ b) with (n +:+ b). apply contains_prefix, prefix_append.
  - rewrite append_cons. cbn [PyStr.contains]. rewrite IH. apply orb_true_r.
Qed.

(** A list splits in one way at the first occurrence of a character. *)
Lemma split_at_first (c : ascii) l1 : forall l2 r1 r2,
  count_occ ascii_dec l1 c = 0 -> count_occ ascii_dec l2 c = 0 ->
  l1 ++ c :: r1 = l2 ++ c :: r2 -> l1 = l2 /\ r1 = r2.
Proof.
  induction l1 as [|x l1 IH]; intros [|y l2] r1 r2 H1 H2 Heq; cbn [app] in Heq.
  - by injection Heq.
  - injection Heq as <- _. cbn [count_occ] in H2.
    by destruct (ascii_dec c c).
  - injection Heq as -> _. cbn [count_occ] in H1.
    by destruct (ascii_dec c c).
  - injection Heq as <- Heq. cbn [count_occ] in H1, H2.
    destruct (ascii_dec x c); [done|].
    destruct (IH l2 r1 r2 H1 H2 Heq) as [-> ->]. done.
Qed.

(** In a blob with one opening bracket, the message about a raster is not
    the message about a raster of another name. *)
Lemma message_names_one pre X post out :
  X <> out ->
  occurrences "<" pre = 0 -> occurrences "<" X = 0 -> occurrences "<" post = 0 ->
  occurrences ">" X = 0 -> occurrences ">" out = 0 ->
  PyStr.contains (empty_msg out) (pre +:+ empty_msg X +:+ post) = false.
Proof.
  intros Hne Hpre HX Hpost HXc Hoc.
  destruct (PyStr.contains _ _) eqn:E; [|done]. exfalso. apply Hne.
  apply contains_split in E as (A & B & Heq).
  assert (Hcount : occurrences "<" A = 0).
  { apply (f_equal (occurrences "<")) in Heq. unfold empty_msg in Heq.
    rewrite !occurrences_app, Hpre, HX, Hpost in Heq.
    change (occurrences "<" "The reprojected raster <") with 1 in Heq.
    change (occurrences "<" "> is empty") with 0 in Heq. lia. }
  apply (f_equal chars) in Heq. unfold empty_msg in Heq.
  rewrite !chars_app, <- ?app_assoc in Heq.
  destruct (split_at_first "<"
              (chars pre ++ chars "The reprojected raster ")
              (chars A ++ chars "The reprojected raster ")
              (chars X ++ chars "> is empty" ++ chars post)
              (chars out ++ chars "> is empty" ++ chars B)) as [_ Hrest].
  { fold (occurrences "<" pre) in Hpre. unfold occurrences in Hpre.
    by rewrite count_occ_app, Hpre. }
  { unfold occurrences in Hcount. by rewrite count_occ_app, Hcount. }
  { rewrite <- !app_assoc. exact Heq. }
  destruct (split_at_first ">" (chars X) (chars out)
              (chars " is empty" ++ chars post)
              (chars " is empty" ++ chars B)) as [Hname _]; [done|done|exact Hrest|].
  by apply chars_inj.
Qed.

(** C10, the claim as stated fails: the message about another raster,
    one named after the transient token, is taken by the transient rule,
    which logs another warning than the generic rule. *)
Lemma empty_result_names_output_counterexample :
  let blob := "ERROR: " +:+ empty_msg token_name in
  let l0 := {| tries := 0; next_try := true; noOverlap := false |} in
  let run := loop_body Ex.opts (Ex.world (fun _ => blob) "")
               (build_kwargsstr (build_kwargs (options_items Ex.opts))) l0 Ex.start in
  token_name <> output Ex.opts
  /\ PyStr.contains (empty_msg token_name) blob = true
  /\ PyStr.contains (empty_msg (output Ex.opts)) blob = false
  /\ classify (output Ex.opts) true blob = Some TransientGzip
  /\ emitted Ex.start run.2 =
     [Popen (command_line Ex.opts); Sleep 10; Warning "Retrying 1/10 (a.tif) ..."]
  /\ emitted Ex.start run.2 <>
     Popen (command_line Ex.opts)
     :: rule_events (input Ex.opts) 1 true blob GenericNonEmpty.
Proof. vm_compute. repeat split; discriminate. Qed.

(** C10, amended.  The empty-result rule is a substring test for the
    message built from the output option.  A blob that contains that
    message stops the loop, and with no marker of an earlier rule it does
    so with the no-data warning.  A blob that does not contain it, nor the
    marker of an earlier rule, and is not empty is retried exactly while
    the budget lasts, and is handled as the generic rule prescribes unless
    it contains the transient token.  A blob made of some text, the message
    about a raster [X] and some more text contains the message about the
    output when [X] is the output option, and does not when [X] is another
    name, the two names have no angle bracket and the rest of the blob has
    no opening bracket. *)
Theorem empty_result_names_output options w kwargsstr l s :
  let n := S (tries l) in
  let cmd := import_cmd kwargsstr in
  let budget := (n <? max_tries)%nat in
  let text := (w_import w n cmd).1 +:+ (w_import w n cmd).2 in
  PyStr.utf8_valid (w_import w n cmd).1 = true ->
  PyStr.utf8_valid (w_import w n cmd).2 = true ->
  (PyStr.contains (empty_msg (output options)) text = true ->
     (exists l' s', loop_body options w kwargsstr l s = (Ok l', s') /\ next_try l' = false)
     /\ (PyStr.contains progress_marker text = false ->
         PyStr.contains no_overlap_msg text = false ->
         loop_body options w kwargsstr l s =
         (Ok {| tries := n; next_try := false; noOverlap := noOverlap l |},
          log s [ Popen cmd;
                  Warning ("Only no-data values found in current region for input raster <"
                           +:+ input options +:+ ">") ])))
  /\ (PyStr.contains (empty_msg (output options)) text = false ->
      PyStr.contains progress_marker text = false ->
      PyStr.contains no_overlap_msg text = false ->
      text <> "" ->
      (exists evs,
         loop_body options w kwargsstr l s =
         (Ok {| tries := n; next_try := budget; noOverlap := noOverlap l |},
          log s (Popen cmd :: evs)))
      /\ (PyStr.contains "cpl_vsil_gzip.cpp" text = false ->
          loop_body options w kwargsstr l s =
          (Ok {| tries := n; next_try := budget; noOverlap := noOverlap l |},
           log s (Popen cmd :: rule_events (input options) n budget text GenericNonEmpty))))
  /\ (forall pre X post,
        text = pre +:+ empty_msg X +:+ post ->
        (X = output options -> PyStr.contains (empty_msg (output options)) text = true)
        /\ (X <> output options ->
            occurrences "<" pre = 0 -> occurrences "<" X = 0 -> occurrences "<" post = 0 ->
            occurrences ">" X = 0 -> occurrences ">" (output options) = 0 ->
            PyStr.contains (empty_msg (output options)) text = false)).
Proof.
  intros n cmd budget text H1 H2.
  rewrite loop_body_run. fold n cmd budget text. rewrite H1, H2. cbn [andb].
  unfold classify, precedence. split; [|split].
  - intros Hout. cbn [List.find rule_matches]. rewrite Hout. split.
    + destruct (PyStr.contains progress_marker text); [by eexists _, _|].
      destruct (PyStr.contains no_overlap_msg text); by eexists _, _.
    + by intros -> ->.
  - intros Hout Hladder Hover Hne. cbn [List.find rule_matches].
    rewrite Hout, Hladder, Hover, (bool_decide_eq_false_2 _ Hne).
    split.
    + destruct (PyStr.contains "cpl_vsil_gzip.cpp" text), budget,
        (PyStr.contains "503" text); cbn; by eexists.
    + intros ->. cbn [andb]. by destruct (PyStr.contains "503" text).
  - intros pre X post ->. split.
    + intros ->. apply contains_intro.
    + intros. by apply message_names_one.
Qed.

(** The tool reports, in a longer line, that another raster, [b], is
    empty: first attempt, so a warning and another attempt.  When it
    reports so of the output, [a], the loop stops on the no-data warning. *)
Lemma empty_result_names_output_witness :
  let other := "ERROR: " +:+ empty_msg "b" in
  let own := "ERROR: " +:+ empty_msg "a" +:+ String "010" "" in
  let l0 := {| tries := 0; next_try := true; noOverlap := false |} in
  let k := build_kwargsstr (build_kwargs (options_items Ex.opts)) in
  loop_body Ex.opts (Ex.world (fun _ => other) "") k l0 Ex.start =
  (Ok {| tries := 1; next_try := true; noOverlap := false |},
   log Ex.start (Popen (import_cmd k)
                 :: rule_events "a.tif" 1 true other GenericNonEmpty))
  /\ loop_body Ex.opts (Ex.world (fun _ => own) "") k l0 Ex.start =
     (Ok {| tries := 1; next_try := false; noOverlap := false |},
      log Ex.start [ Popen (import_cmd k);
                     Warning "Only no-data values found in current region for input raster <a.tif>" ]).
Proof.
  intros other own l0 k. split.
  - destruct (empty_result_names_output Ex.opts (Ex.world (fun _ => other) "")
                k l0 Ex.start eq_refl eq_refl) as (_ & Hother & Hnames).
    destruct (Hnames "ERROR: " "b" "" eq_refl) as [_ Hb].
    refine (proj2 (Hother (Hb _ _ _ _ _ _) _ _ _) _);
      try reflexivity; discriminate.
  - destruct (empty_result_names_output Ex.opts (Ex.world (fun _ => own) "")
                k l0 Ex.start eq_refl eq_refl) as (Hstop & _ & Hnames).
    destruct (Hnames "ERROR: " "a" (String "010" "") eq_refl) as [Ha _].
    exact (proj2 (Hstop (Ha eq_refl)) eq_refl eq_refl).
Defined.

(** ** The forwarded options *)

Lemma setitem_fresh {V} k (v : V) (d : list (string * V)) :
  k ∉ d.*1 -> PyDict.setitem k v d = d ++ [(k, v)].
Proof.
  induction d as [|[k' v'] d IH]; simpl; [done|].
  intros Hk. apply not_elem_of_cons in Hk as [Hne Hk].
  rewrite decide_False by done. by rewrite IH.
Qed.

Lemma forwarded_cons kv items :
  forwarded (kv :: items) =
  if negb (bool_decide (kv.1 = "newmapset")) && PyStr.truthy kv.2
  then kv :: forwarded items else forwarded items.
Proof. reflexivity. Qed.

(** On a dictionary, whose keys are distinct, [kwargs] collects the
    forwarded items in order. *)
Lemma build_kwargs_from acc items :
  NoDup (acc.*1 ++ items.*1) ->
  foldl (fun kwargs '(opt, val) =>
           if negb (bool_decide (opt = "newmapset")) && PyStr.truthy val
           then PyDict.setitem opt val kwargs else kwargs)
        acc items
  = acc ++ forwarded items.
Proof.
  revert acc. induction items as [|[k v] items IH]; intros acc Hnd.
  { simpl. by rewrite app_nil_r. }
  rewrite forwarded_cons. cbn [foldl fst snd].
  destruct (negb (bool_decide (k = "newmapset")) && PyStr.truthy v) eqn:Htest.
  - rewrite setitem_fresh.
    2:{ apply NoDup_app in Hnd as (_ & Hdisj & _). intros Hin.
        apply (Hdisj _ Hin). simpl. apply list_elem_of_here. }
    rewrite IH; [by rewrite <- app_assoc|].
    rewrite fmap_app. simpl. by rewrite <- app_assoc.
  - rewrite IH; [done|].
    simpl in Hnd. apply NoDup_app in Hnd as (Ha & Hdisj & Hi).
    apply NoDup_app. repeat split; auto.
    + intros x Hx Hin. apply (Hdisj x Hx). by apply list_elem_of_further.
    + by apply NoDup_cons in Hi as [_ ?].
Qed.

Lemma build_kwargs_forwarded items :
  NoDup items.*1 -> build_kwargs items = forwarded items.
Proof. intros Hnd. unfold build_kwargs. by rewrite build_kwargs_from. Qed.

Lemma append_assoc (a b c : string) : (a +:+ b) +:+ c = a +:+ (b +:+ c).
Proof. induction a as [|x a IH]; [done|]. by rewrite !append_cons, IH. Qed.

Lemma append_empty_r (a : string) : a +:+ "" = a.
Proof. induction a as [|x a IH]; [done|]. by rewrite append_cons, IH. Qed.

Lemma build_kwargsstr_from acc kwargs :
  foldl (fun kwargsstr '(key, val) =>
           kwargsstr +:+ " " +:+ key +:+ "='" +:+ val +:+ "'")
        acc kwargs
  = acc +:+ concat_strings (format_option <$> kwargs).
Proof.
  revert acc. induction kwargs as [|[k v] kwargs IH]; intros acc.
  { simpl. by rewrite append_empty_r. }
  cbn [foldl fmap list_fmap concat_strings]. rewrite IH.
  unfold format_option at 2. cbn [fst snd]. by rewrite append_assoc.
Qed.

Lemma build_kwargsstr_concat kwargs :
  build_kwargsstr kwargs = concat_strings (format_option <$> kwargs).
Proof. unfold build_kwargsstr. by rewrite build_kwargsstr_from. Qed.

Lemma options_items_NoDup o : NoDup (options_items o).*1.
Proof.
  unfold options_items; simpl.
  repeat (apply NoDup_cons; split;
          [intros H; repeat (apply elem_of_cons in H as [H|H]; [discriminate H|]);
           by apply elem_of_nil in H|]).
  apply NoDup_nil_2.
Qed.

Lemma forwarded_app a b : forwarded (a ++ b) = forwarded a ++ forwarded b.
Proof. unfold forwarded. apply List.filter_app. Qed.

(** C9. The command line is [r.import --q ] followed by [ key='value'] for
    the options that are forwarded, which are those other than [newmapset]
    whose value is not empty: an option whose value is empty is not in the
    command line at all, and the command line is the one of the same
    dictionary without that option. *)
Theorem empty_options_omitted (o : Options) :
  command_line o =
  import_cmd (concat_strings (format_option <$> forwarded (options_items o)))
  /\ Forall (fun kv => kv.2 <> "" /\ kv.1 <> "newmapset") (forwarded (options_items o))
  /\ (forall k, (k, "") ∉ build_kwargs (options_items o))
  /\ (forall before k after,
        NoDup (before ++ (k, "") :: after).*1 ->
        build_kwargsstr (build_kwargs (before ++ (k, "") :: after)) =
        build_kwargsstr (build_kwargs (before ++ after))).
Proof.
  assert (Hfw : forall items : list (string * string),
             Forall (fun kv => kv.2 <> "" /\ kv.1 <> "newmapset") (forwarded items)).
  { intros items. apply Forall_forall. intros [k v] Hin.
    apply list_elem_of_In, List.filter_In in Hin as [_ Ht]. simpl in Ht.
    apply andb_true_iff in Ht as [Hk Hv]. simpl. split.
    - intros ->. done.
    - intros ->. done. }
  split; [|split; [|split]].
  - unfold command_line.
    by rewrite build_kwargs_forwarded, build_kwargsstr_concat by apply options_items_NoDup.
  - apply Hfw.
  - intros k Hin. rewrite build_kwargs_forwarded in Hin by apply options_items_NoDup.
    pose proof (Hfw (options_items o)) as H. rewrite Forall_forall in H.
    by destruct (H _ Hin) as [? _].
  - intros before k after Hnd.
    rewrite (build_kwargs_forwarded (before ++ (k, "") :: after)) by done.
    rewrite (build_kwargs_forwarded (before ++ after)).
    + rewrite !forwarded_app, forwarded_cons. cbn [fst snd PyStr.truthy].
      by rewrite andb_false_r.
    + rewrite fmap_app in *. simpl in Hnd.
      apply NoDup_app in Hnd as (Ha & Hdisj & Hi).
      apply NoDup_app. repeat split; auto.
      * intros x Hx Hin. apply (Hdisj x Hx). by apply list_elem_of_further.
      * by apply NoDup_cons in Hi as [_ ?].
Qed.

(** * The retry phase in closed form *)

Section AttemptsRun.

Variable options : Options.
Variable w : World.

Lemma attempt_retries_inv n :
  attempt_retries options w n = true ->
  attempt_decodes options w n = true
  /\ attempt_flag options w n = false
  /\ n < max_tries.
Proof.
  unfold attempt_retries, attempt_flag, attempt_rule.
  intros [Hd Hr]%andb_true_iff. split; [done|].
  destruct (classify _ _ _) as [r|] eqn:Hc; [|done]. split.
  - by destruct r.
  - apply Nat.ltb_lt. eapply retry_needs_budget; eauto.
Qed.

(** One pass through the loop body, while the flag is clear. *)
Lemma loop_body_attempt l s :
  noOverlap l = false ->
  let n := S (tries l) in
  loop_body options w (kwargsstr_of options) l s =
  (if attempt_decodes options w n
   then Ok {| tries := n; next_try := attempt_retries options w n;
              noOverlap := attempt_flag options w n |}
   else Raise UnicodeDecodeError,
   log s (attempt_events options w n)).
Proof.
  intros Hflag n. rewrite loop_body_run. fold n.
  unfold attempt_events, attempt_retries, attempt_flag, attempt_rule,
    attempt_decodes, attempt_text, attempt_budget, attempt_output.
  change (import_cmd (kwargsstr_of options)) with (command_line options).
  destruct (PyStr.utf8_valid _ && PyStr.utf8_valid _); [|done].
  destruct (classify_total (output options) (n <? max_tries)%nat
              ((w_import w n (command_line options)).1
               +:+ (w_import w n (command_line options)).2)) as [r Hr].
  rewrite Hr, Hflag, orb_false_r. done.
Qed.

Lemma first_stop_ge fuel n : n <= first_stop options w fuel n.
Proof.
  revert n. induction fuel as [|fuel IH]; intros n; simpl; [done|].
  destruct (attempt_retries options w n); [|done].
  specialize (IH (S n)). lia.
Qed.

Lemma first_stop_here fuel n :
  attempt_retries options w n = false -> first_stop options w fuel n = n.
Proof. intros H. destruct fuel; simpl; by rewrite ?H. Qed.

(** The loop stops at the first attempt that is not followed by another
    one, and logs the events of the attempts up to it. *)
Lemma while_closed_form fuel : forall l s,
  next_try l = true -> noOverlap l = false -> max_tries <= tries l + S fuel ->
  let m := first_stop options w fuel (S (tries l)) in
  while_next_try options w (S fuel) (kwargsstr_of options) l s =
  (if attempt_decodes options w m
   then Ok {| tries := m; next_try := false; noOverlap := attempt_flag options w m |}
   else Raise UnicodeDecodeError,
   log s (concat (attempt_events options w <$> seq (S (tries l)) (m - tries l)))).
Proof.
  induction fuel as [|fuel IH]; intros l s Hnext Hflag Hfuel m.
  all: rewrite while_pass, bind_run, loop_body_attempt by done.
  all: destruct (attempt_retries options w (S (tries l))) eqn:Hretry.
  - apply attempt_retries_inv in Hretry as (_ & _ & ?). lia.
  - unfold m. rewrite first_stop_here by done.
    replace (S (tries l) - tries l) with 1 by lia. cbn [seq fmap list_fmap concat].
    rewrite app_nil_r.
    destruct (attempt_decodes options w (S (tries l))); [|done].
    by rewrite while_stop.
  - pose proof Hretry as (Hd & Hf & Hlt)%attempt_retries_inv.
    rewrite Hd. unfold m. cbn [first_stop]. rewrite Hretry.
    rewrite IH; [|done|by rewrite Hf|cbn [tries]; lia]. cbn [tries].
    rewrite log_log.
    pose proof (first_stop_ge fuel (S (S (tries l)))) as Hge.
    replace (first_stop options w fuel (S (S (tries l))) - tries l)
      with (S (first_stop options w fuel (S (S (tries l))) - S (tries l))) by lia.
    done.
  - unfold m. rewrite first_stop_here by done.
    replace (S (tries l) - tries l) with 1 by lia. cbn [seq fmap list_fmap concat].
    rewrite app_nil_r.
    destruct (attempt_decodes options w (S (tries l))); [|done].
    by rewrite while_stop.
Qed.

End AttemptsRun.

(** The retry phase, from the attempts. *)
Lemma retry_phase_run options flags w s :
  import_with_retry options flags w max_tries s =
  (retry_result options w, log s (retry_events options w)).
Proof.
  unfold import_with_retry. rewrite bind_run, emit_log. cbv beta iota zeta.
  change max_tries with (S (max_tries - 1)) at 1.
  rewrite while_closed_form; [|done|done|cbn [tries]; unfold max_tries; lia].
  rewrite log_log. cbn [tries].
  fold (last_attempt options w). by rewrite Nat.sub_0_r.
Qed.

(** ** The last attempt *)

Section LastAttempt.

Variable options : Options.
Variable w : World.

Lemma attempt_retries_budget n :
  max_tries <= n -> attempt_retries options w n = false.
Proof.
  intros Hn. destruct (attempt_retries options w n) eqn:H; [|done].
  apply attempt_retries_inv in H as (_ & _ & ?). lia.
Qed.

Lemma first_stop_spec fuel : forall n,
  let m := first_stop options w fuel n in
  n <= m <= n + fuel
  /\ (forall i, n <= i < m -> attempt_retries options w i = true)
  /\ (max_tries <= n + fuel -> attempt_retries options w m = false).
Proof.
  induction fuel as [|fuel IH]; intros n; cbn [first_stop]; cbv zeta.
  - split; [lia|]. split; [intros; lia|].
    intros. apply attempt_retries_budget. lia.
  - destruct (attempt_retries options w n) eqn:Hn.
    + destruct (IH (S n)) as (Hb & Hlt & Hstop). cbv zeta in *.
      split; [lia|]. split.
      * intros i Hi. destruct (decide (i = n)) as [->|]; [done|]. apply Hlt. lia.
      * intros. apply Hstop. lia.
    + split; [lia|]. split; [intros; lia|done].
Qed.

Lemma attempt_events_io n :
  List.filter is_io (attempt_events options w n) =
  Popen (command_line options)
  :: if attempt_retries options w n then [Sleep 10] else [].
Proof.
  unfold attempt_events, attempt_retries. cbn [List.filter is_io].
  destruct (attempt_decodes options w n); [|done].
  destruct (attempt_rule options w n); [|done].
  by rewrite rule_events_io.
Qed.

Lemma attempts_io k : forall n,
  (forall i, n <= i < n + k -> attempt_retries options w i = true) ->
  attempt_retries options w (n + k) = false ->
  List.filter is_io (concat (attempt_events options w <$> seq n (S k))) =
  ladder (command_line options) k.
Proof.
  induction k as [|k IH]; intros n Hlt Hstop.
  - cbn [seq fmap list_fmap concat]. rewrite app_nil_r, attempt_events_io.
    rewrite Nat.add_0_r in Hstop. by rewrite Hstop.
  - change (seq n (S (S k))) with (n :: seq (S n) (S k)).
    cbn [fmap list_fmap concat]. rewrite List.filter_app, attempt_events_io.
    rewrite Hlt by lia. rewrite IH.
    + done.
    + intros i Hi. apply Hlt. lia.
    + by replace (S n + k) with (n + S k) by lia.
Qed.

End LastAttempt.

(** The last attempt is the least one that is not followed by another. *)
Lemma last_attempt_spec options w :
  let m := last_attempt options w in
  1 <= m <= max_tries
  /\ attempt_retries options w m = false
  /\ (forall n, 1 <= n < m -> attempt_retries options w n = true)
  /\ List.filter is_io (retry_events options w) = ladder (command_line options) (m - 1)
  /\ List.length (List.filter is_popen (retry_events options w)) = m.
Proof.
  intros m.
  destruct (first_stop_spec options w (max_tries - 1) 1) as (Hb & Hlt & Hstop).
  fold (last_attempt options w) in Hb, Hlt, Hstop. fold m in Hb, Hlt, Hstop.
  assert (Hm : 1 <= m <= max_tries) by (unfold max_tries in *; simpl in *; lia).
  assert (Hs : attempt_retries options w m = false).
  { apply Hstop. unfold max_tries. simpl. lia. }
  assert (Hio : List.filter is_io (retry_events options w) =
                ladder (command_line options) (m - 1)).
  { unfold retry_events. cbn [List.filter is_io]. fold m.
    replace m with (S (m - 1)) at 1 by lia. apply attempts_io.
    - intros i Hi. apply Hlt. lia.
    - by replace (1 + (m - 1)) with m by lia. }
  repeat split; try done; try lia.
  rewrite <- filter_popen_io, Hio, ladder_popens. lia.
Qed.

(** ** Runs of known shape *)

Section KnownRuns.

Variable options : Options.
Variable w : World.

Lemma last_attempt_unique m :
  1 <= m ->
  attempt_retries options w m = false ->
  (forall n, 1 <= n < m -> attempt_retries options w n = true) ->
  last_attempt options w = m.
Proof.
  intros Hm Hstop Hlt.
  destruct (last_attempt_spec options w) as (Hb & Hs & Hl & _).
  destruct (Nat.lt_trichotomy (last_attempt options w) m) as [H|[H|H]]; [|done|].
  - rewrite Hlt in Hs by lia. done.
  - rewrite Hl in Hstop by lia. done.
Qed.

Lemma transient_attempt_run n :
  n < max_tries -> transient_attempt options w n ->
  attempt_retries options w n = true
  /\ attempt_events options w n =
     [Popen (command_line options); Sleep 10; retry_warning (input options) n].
Proof.
  intros Hn (Hd & Hg & Hl & Ho & He).
  unfold attempt_retries, attempt_events, attempt_rule, attempt_budget, classify, precedence.
  apply Nat.ltb_lt in Hn. rewrite Hd, Hn. cbn [List.find rule_matches].
  by rewrite Hl, Ho, He, Hg.
Qed.

Lemma success_attempt_run n :
  success_attempt options w n ->
  attempt_retries options w n = false
  /\ attempt_decodes options w n = true
  /\ attempt_flag options w n = false
  /\ attempt_events options w n = [Popen (command_line options)].
Proof.
  intros (Hd & Hl).
  unfold attempt_retries, attempt_events, attempt_flag, attempt_rule, classify, precedence.
  rewrite Hd. cbn [List.find rule_matches]. by rewrite Hl.
Qed.

Lemma failed_attempt_run n :
  failed_attempt options w n ->
  attempt_decodes options w n = true
  /\ attempt_flag options w n = false
  /\ attempt_retries options w n = attempt_budget n
  /\ List.filter is_warning (attempt_events options w n) <> []
  /\ (attempt_budget n = false ->
      attempt_events options w n =
      [ Popen (command_line options);
        Warning (attempt_text options w n +:+ " (" +:+ input options +:+ ")") ]).
Proof.
  intros (Hd & Hne & Hl & Ho & He).
  unfold attempt_retries, attempt_events, attempt_flag, attempt_rule, classify, precedence.
  rewrite Hd. cbn [List.find rule_matches]. rewrite Hl, Ho, He.
  rewrite (bool_decide_eq_false_2 _ Hne).
  destruct (PyStr.contains "cpl_vsil_gzip.cpp" _), (attempt_budget n),
    (PyStr.contains "503" _); cbn; by repeat split.
Qed.

End KnownRuns.

(** X3. If the first [k] attempts (fewer than ten) print the
    compression-library token and no terminal marker, and the next attempt
    prints the progress ladder, the tool is invoked exactly [k + 1] times;
    each failed attempt is followed by a sleep of ten units and the warning
    [Retrying i/10 (input) ...], and the loop returns with the no-overlap
    flag clear. *)
Theorem transient_then_success options flags w s k :
  k < max_tries ->
  (forall i, 1 <= i <= k -> transient_attempt options w i) ->
  success_attempt options w (S k) ->
  import_with_retry options flags w max_tries s =
  (Ok {| tries := S k; next_try := false; noOverlap := false |},
   log s (Message "Running r.import ..."
          :: concat ((fun i => [ Popen (command_line options); Sleep 10;
                                 retry_warning (input options) i ]) <$> seq 1 k)
          ++ [Popen (command_line options)])).
Proof.
  intros Hk Htransient Hsuccess.
  apply success_attempt_run in Hsuccess as (Hstop & Hd & Hf & Hev).
  assert (Hlast : last_attempt options w = S k).
  { apply last_attempt_unique; [lia|done|].
    intros n Hn. apply transient_attempt_run; [lia|]. apply Htransient. lia. }
  rewrite retry_phase_run. unfold retry_result, retry_events.
  rewrite Hlast, Hd, Hf. do 3 f_equal.
  rewrite seq_S, fmap_app, concat_app. cbn [fmap list_fmap concat plus].
  rewrite Hev, app_nil_r. f_equal. f_equal.
  apply Forall_fmap_ext_1, Forall_forall. intros i Hi%elem_of_seq.
  apply transient_attempt_run; [lia|]. apply Htransient. lia.
Qed.

(** Two transient failures, then the progress ladder. *)
Lemma transient_then_success_witness :
  let w := Ex.world Ex.transient_twice "cell/a" in
  2 < max_tries
  /\ import_with_retry Ex.opts Ex.no_flags w max_tries Ex.start =
     (Ok {| tries := 3; next_try := false; noOverlap := false |},
      log Ex.start
        (Message "Running r.import ..."
         :: concat ((fun i => [ Popen (command_line Ex.opts); Sleep 10;
                                retry_warning (input Ex.opts) i ]) <$> seq 1 2)
         ++ [Popen (command_line Ex.opts)])).
Proof.
  intros w.
  assert (Hk : 2 < max_tries) by (unfold max_tries; lia).
  split; [exact Hk|].
  refine (transient_then_success Ex.opts Ex.no_flags w Ex.start 2 Hk _ _).
  - intros i Hi.
    assert (Hcases : i = 1 \/ i = 2) by lia.
    destruct Hcases as [-> | ->]; vm_compute; repeat split.
  - vm_compute. repeat split.
Defined.

(** X4. If each of the ten attempts prints some text without a terminal
    marker, the tool is invoked exactly ten times, with nine sleeps of ten
    units; the tenth attempt logs the output with the input name and no
    retry notice, and the loop returns with the no-overlap flag clear, so
    that the verification step alone decides the outcome. *)
Theorem budget_exhausted options flags w s :
  (forall i, 1 <= i <= max_tries -> failed_attempt options w i) ->
  exists evs,
    import_with_retry options flags w max_tries s =
    (Ok {| tries := max_tries; next_try := false; noOverlap := false |},
     log s (evs ++ [ Popen (command_line options);
                     Warning (attempt_text options w max_tries
                              +:+ " (" +:+ input options +:+ ")") ]))
    /\ List.filter is_io evs ++ [Popen (command_line options)] =
       ladder (command_line options) 9
    /\ List.length (List.filter is_popen (retry_events options w)) = 10.
Proof.
  intros Hfailed.
  assert (Hlast : last_attempt options w = max_tries).
  { apply last_attempt_unique; [unfold max_tries; lia| |].
    - apply attempt_retries_budget. done.
    - intros n Hn.
      destruct (failed_attempt_run options w n) as (_ & _ & -> & _); [apply Hfailed; lia|].
      apply Nat.ltb_lt. lia. }
  destruct (failed_attempt_run options w max_tries) as (Hd & Hf & _ & _ & Hev).
  { apply Hfailed. unfold max_tries. lia. }
  specialize (Hev eq_refl).
  destruct (last_attempt_spec options w) as (_ & _ & _ & Hio & Hpop).
  rewrite Hlast in Hio, Hpop.
  exists (Message "Running r.import ..."
          :: concat (attempt_events options w <$> seq 1 9)).
  assert (Hevents : retry_events options w =
                    (Message "Running r.import ..."
                     :: concat (attempt_events options w <$> seq 1 9))
                    ++ attempt_events options w max_tries).
  { unfold retry_events. rewrite Hlast. change max_tries with (S 9) at 1.
    rewrite seq_S, fmap_app, concat_app. cbn [fmap list_fmap concat plus].
    by rewrite app_nil_r. }
  split; [|split].
  - rewrite retry_phase_run. unfold retry_result.
    by rewrite Hlast, Hd, Hf, Hevents, Hev.
  - rewrite Hevents, List.filter_app, Hev in Hio. exact Hio.
  - exact Hpop.
Qed.

(** The remote source answers 503 on every attempt. *)
Lemma budget_exhausted_witness :
  let w := Ex.world (fun _ => "ERROR 1: HTTP error code : 503") "" in
  (forall i, 1 <= i <= max_tries -> failed_attempt Ex.opts w i)
  /\ exists evs,
       import_with_retry Ex.opts Ex.no_flags w max_tries Ex.start =
       (Ok {| tries := max_tries; next_try := false; noOverlap := false |},
        log Ex.start (evs ++ [ Popen (command_line Ex.opts);
                               Warning (attempt_text Ex.opts w max_tries
                                        +:+ " (" +:+ input Ex.opts +:+ ")") ]))
       /\ List.filter is_io evs ++ [Popen (command_line Ex.opts)] =
          ladder (command_line Ex.opts) 9
       /\ List.length (List.filter is_popen (retry_events Ex.opts w)) = 10.
Proof.
  intros w.
  assert (H : forall i, 1 <= i <= max_tries -> failed_attempt Ex.opts w i).
  { intros i _. vm_compute. repeat split. discriminate. }
  split; [exact H|]. exact (budget_exhausted Ex.opts Ex.no_flags w Ex.start H).
Defined.

(** * The setup in closed form *)

(** With every key at hand the dictionary accesses of the setup raise
    nothing, and the setup runs to its end when its collaborators
    return. *)
Lemma workspace_setup_completes_if o w s gisdbase location gisrc :
  w_gisenv w !! "GISDBASE" = Some gisdbase ->
  w_gisenv w !! "LOCATION_NAME" = Some location ->
  environ s !! "GISRC" = Some gisrc ->
  (extent o = "region" -> Forall (fun k => is_Some (w_region w !! k)) stripped_keys) ->
  workspace_setup o w s = (Ok gisrc, setup_state o w s gisdbase location gisrc).
Proof.
  intros Hdb Hloc Hrc Hkeys. unfold workspace_setup, setup_state, setup_events. cbv zeta.
  rewrite bind_run. unfold environ_update at 1. cbv beta iota.
  change (foldl _ (environ s) _) with (with_defaults (environ s)).
  set (s0 := {| environ := with_defaults (environ s); trace := trace s |}).
  assert (Hs0 : trace s0 = trace s) by done.
  assert (He0 : environ s0 = with_defaults (environ s)) by done.
  assert (Henv0 : environ s0 !! "GISRC" = Some gisrc).
  { rewrite He0. unfold with_defaults. by rewrite !lookup_insert_ne. }
  clearbody s0.
  rewrite bind_run, getitem_run, Hdb. rewrite bind_run, getitem_run, Hloc.
  run_steps. rewrite environ_get_run. simpl environ. rewrite Henv0.
  run_steps. unfold environ_set at 1. cbv beta iota. run_steps.
  rewrite !log_log. simpl environ. simpl trace.
  destruct (decide (extent o = "region")) as [Hext|Hext].
  - specialize (Hkeys Hext). unfold stripped_keys in Hkeys.
    apply Forall_cons in Hkeys as [[? K1] Hkeys].
    apply Forall_cons in Hkeys as [[? K2] Hkeys].
    apply Forall_cons in Hkeys as [[? K3] Hkeys].
    apply Forall_cons in Hkeys as [[? K4] Hkeys].
    apply Forall_cons in Hkeys as [[? K5] _].
    run_steps. rewrite environ_get_run. simpl environ.
    rewrite lookup_insert_eq. run_steps.
    rewrite delitem_run, K1. run_steps.
    rewrite delitem_run, lookup_delete_ne, K2 by done. run_steps.
    rewrite delitem_run, !lookup_delete_ne, K3 by done. run_steps.
    rewrite delitem_run, !lookup_delete_ne, K4 by done. run_steps.
    rewrite delitem_run, !lookup_delete_ne, K5 by done. run_steps.
    rewrite ?log_log. unfold log. cbn [environ trace].
    rewrite ?He0, ?Hs0, <- ?app_assoc. reflexivity.
  - run_steps. rewrite environ_get_run. simpl environ.
    rewrite lookup_insert_eq. run_steps.
    rewrite ?log_log. unfold log. cbn [environ trace].
    rewrite ?He0, ?Hs0, <- ?app_assoc. reflexivity.
Qed.

(** What a completed setup has found, and the state it leaves. *)
Lemma workspace_setup_state o w s gisrc s1 :
  workspace_setup o w s = (Ok gisrc, s1) ->
  exists gisdbase location,
    w_gisenv w !! "GISDBASE" = Some gisdbase
    /\ w_gisenv w !! "LOCATION_NAME" = Some location
    /\ environ s !! "GISRC" = Some gisrc
    /\ (extent o = "region" -> Forall (fun k => is_Some (w_region w !! k)) stripped_keys)
    /\ s1 = setup_state o w s gisdbase location gisrc.
Proof.
  intros Hsetup.
  destruct (workspace_setup_ok_inv o w s gisrc s1 Hsetup)
    as (Hrc & _ & gisdbase & location & Hdb & Hloc & _ & Hkeys).
  exists gisdbase, location. repeat split; auto.
  rewrite (workspace_setup_completes_if o w s gisdbase location gisrc) in Hsetup by done.
  by injection Hsetup.
Qed.

(** X5. When the setup completes, the session has a database and a
    location, the environment had [GISRC] and, with [extent] equal to
    ["region"], the region has the five fields that are deleted.  The setup
    has returned the old pointer, has left the environment with the three
    defaults and the pointer redirected to the private file, and has done,
    in this order: remove the mapset directory, remove and copy the
    private file, read the region if asked, switch the mapset, apply the
    region if asked. *)
Theorem workspace_setup_completes o w s gisrc s1 :
  workspace_setup o w s = (Ok gisrc, s1) ->
  exists gisdbase location,
    w_gisenv w !! "GISDBASE" = Some gisdbase
    /\ w_gisenv w !! "LOCATION_NAME" = Some location
    /\ environ s !! "GISRC" = Some gisrc
    /\ (extent o = "region" -> Forall (fun k => is_Some (w_region w !! k)) stripped_keys)
    /\ s1 = setup_state o w s gisdbase location gisrc.
Proof. apply workspace_setup_state. Qed.

(** The setup of the example session, with the region carried over. *)
Lemma workspace_setup_completes_witness :
  let w := Ex.world (fun _ => "") "" in
  let s1 := (workspace_setup Ex.opts_region w Ex.start).2 in
  workspace_setup Ex.opts_region w Ex.start = (Ok "/tmp/grass/rc", s1)
  /\ exists gisdbase location,
       w_gisenv w !! "GISDBASE" = Some gisdbase
       /\ w_gisenv w !! "LOCATION_NAME" = Some location
       /\ environ Ex.start !! "GISRC" = Some "/tmp/grass/rc"
       /\ (extent Ex.opts_region = "region" ->
           Forall (fun k => is_Some (w_region w !! k)) stripped_keys)
       /\ s1 = setup_state Ex.opts_region w Ex.start gisdbase location "/tmp/grass/rc".
Proof.
  intros w s1.
  assert (H : workspace_setup Ex.opts_region w Ex.start = (Ok "/tmp/grass/rc", s1))
    by (vm_compute; reflexivity).
  split; [exact H|]. exact (workspace_setup_completes Ex.opts_region w Ex.start _ s1 H).
Defined.

(** ** Missing keys *)

Lemma main_setup_raises o fl w s e s1 :
  workspace_setup o w s = (Raise e, s1) -> main o fl w s = (Raise e, s1).
Proof. intros H. unfold main, main_fuel. by rewrite (bind_raise _ _ _ _ _ H). Qed.

(** X6. A key that the session lacks ends the worker with a [KeyError]
    before the import tool is run.  Without [GISDBASE] or [LOCATION_NAME]
    nothing has been done but setting the three defaults; without [GISRC]
    in the environment the mapset directory has already been removed; and
    with [extent] equal to ["region"] and a region that lacks [cells], the
    mapset has been switched and the pointer is left on the private
    file. *)
Theorem setup_key_errors o fl w s :
  (w_gisenv w !! "GISDBASE" = None ->
   main o fl w s =
   (Raise (KeyError "GISDBASE"),
    {| environ := with_defaults (environ s); trace := trace s |}))
  /\ (forall gisdbase,
        w_gisenv w !! "GISDBASE" = Some gisdbase ->
        w_gisenv w !! "LOCATION_NAME" = None ->
        main o fl w s =
        (Raise (KeyError "LOCATION_NAME"),
         {| environ := with_defaults (environ s); trace := trace s |}))
  /\ (forall gisdbase location,
        w_gisenv w !! "GISDBASE" = Some gisdbase ->
        w_gisenv w !! "LOCATION_NAME" = Some location ->
        environ s !! "GISRC" = None ->
        main o fl w s =
        (Raise (KeyError "GISRC"),
         {| environ := with_defaults (environ s);
            trace := trace s ++
              [ Message ("New mapset: <" +:+ newmapset o +:+ ">");
                TryRmdir (PyStr.path_join gisdbase [location; newmapset o]) ] |}))
  /\ (forall gisdbase location gisrc,
        w_gisenv w !! "GISDBASE" = Some gisdbase ->
        w_gisenv w !! "LOCATION_NAME" = Some location ->
        environ s !! "GISRC" = Some gisrc ->
        extent o = "region" ->
        w_region w !! "cells" = None ->
        main o fl w s =
        (Raise (KeyError "cells"),
         {| environ := <["GISRC" := gisrc +:+ "_" +:+ pretty (w_pid w)]>
                         (with_defaults (environ s));
            trace := trace s ++
              [ Message ("New mapset: <" +:+ newmapset o +:+ ">");
                TryRmdir (PyStr.path_join gisdbase [location; newmapset o]);
                TryRemove (gisrc +:+ "_" +:+ pretty (w_pid w));
                CopyFile gisrc (gisrc +:+ "_" +:+ pretty (w_pid w));
                ReadRegion;
                Message ("GISRC: <" +:+ (gisrc +:+ "_" +:+ pretty (w_pid w)) +:+ ">");
                GMapset "c" (newmapset o) ] |})).
Proof.
  assert (Hstart : forall k : M string,
            (environ_update [ ("GRASS_COMPRESS_NULLS", "1"); ("GRASS_COMPRESSOR", "LZ4");
                              ("GRASS_MESSAGE_FORMAT", "plain") ] ≫= fun _ => k) s =
            k {| environ := with_defaults (environ s); trace := trace s |}).
  { intros k. reflexivity. }
  assert (Henv : with_defaults (environ s) !! "GISRC" = environ s !! "GISRC").
  { unfold with_defaults. by rewrite !lookup_insert_ne. }
  split; [|split; [|split]].
  - intros Hdb. apply main_setup_raises. unfold workspace_setup. rewrite Hstart.
    cbv zeta. by rewrite bind_run, getitem_run, Hdb.
  - intros gisdbase Hdb Hloc. apply main_setup_raises.
    unfold workspace_setup. rewrite Hstart. cbv zeta.
    rewrite bind_run, getitem_run, Hdb. by rewrite bind_run, getitem_run, Hloc.
  - intros gisdbase location Hdb Hloc Hrc. apply main_setup_raises.
    unfold workspace_setup. rewrite Hstart. cbv zeta.
    rewrite bind_run, getitem_run, Hdb. rewrite bind_run, getitem_run, Hloc.
    run_steps. rewrite environ_get_run. cbn [environ log]. rewrite Henv, Hrc.
    by rewrite log_log.
  - intros gisdbase location gisrc Hdb Hloc Hrc Hext Hcells. apply main_setup_raises.
    unfold workspace_setup. rewrite Hstart. cbv zeta.
    rewrite bind_run, getitem_run, Hdb. rewrite bind_run, getitem_run, Hloc.
    run_steps. rewrite environ_get_run. cbn [environ log]. rewrite Henv, Hrc.
    run_steps. unfold environ_set at 1. cbv beta iota. run_steps.
    destruct (decide (extent o = "region")); [|done].
    run_steps. rewrite environ_get_run. cbn [environ log].
    rewrite lookup_insert_eq. run_steps.
    rewrite delitem_run, Hcells. unfold log. cbn [environ trace].
    by rewrite <- ?app_assoc.
Qed.

(** * The whole run in closed form *)

(** [main] after a completed setup. *)
Lemma main_after_setup o fl w s gisrc s1 :
  workspace_setup o w s = (Ok gisrc, s1) ->
  main o fl w s =
  (run_outcome o w,
   {| environ := closing_environ o w gisrc (environ s1);
      trace := trace s1 ++ retry_events o w ++ closing_events o w gisrc |}).
Proof.
  intros Hsetup. unfold main, main_fuel.
  rewrite (bind_ok _ _ _ _ _ Hsetup), bind_run, retry_phase_run.
  unfold closing_environ, run_outcome, closing_events, retry_result,
    artifact_found, lookup_events.
  destruct (attempt_decodes o w (last_attempt o w)).
  2:{ by rewrite app_nil_r. }
  rewrite bind_run, verification_run. cbn [noOverlap].
  destruct (PyStr.truthy (w_find_file w (output o) "raster" (newmapset o))).
  { rewrite cleanup_run. cbn [orb log environ trace]. rewrite <- ?app_assoc. reflexivity. }
  destruct (PyStr.truthy (w_find_file w (output o) "group" (newmapset o))).
  { rewrite cleanup_run. cbn [orb log environ trace]. rewrite <- ?app_assoc. reflexivity. }
  destruct (attempt_flag o w (last_attempt o w)).
  { rewrite cleanup_run. cbn [orb log environ trace]. rewrite <- ?app_assoc. reflexivity. }
  unfold log. cbn [orb environ trace]. rewrite <- ?app_assoc. reflexivity.
Qed.

Lemma first_stop_stable o w f f' n :
  max_tries <= n + f -> max_tries <= n + f' ->
  first_stop o w f n = first_stop o w f' n.
Proof.
  intros Hf Hf'.
  destruct (first_stop_spec o w f n) as (Hb & Hlt & Hstop).
  destruct (first_stop_spec o w f' n) as (Hb' & Hlt' & Hstop').
  cbv zeta in *. specialize (Hstop Hf). specialize (Hstop' Hf').
  destruct (Nat.lt_trichotomy (first_stop o w f n) (first_stop o w f' n)) as [H|[H|H]];
    [|done|].
  - rewrite Hlt' in Hstop by lia. done.
  - rewrite Hlt in Hstop' by lia. done.
Qed.

(** X1. The retry phase is determined by the attempts alone, for any
    fuel of at least ten passes: it runs the attempts 1 to [last_attempt],
    the first attempt that is not followed by another one, logs their
    events in order, and returns the locals of that attempt, with the
    no-overlap flag as that attempt sets it, or raises
    [UnicodeDecodeError] when that attempt does not decode. *)
Theorem retry_phase_closed_form options flags w s fuel :
  max_tries <= fuel ->
  import_with_retry options flags w fuel s =
  (retry_result options w, log s (retry_events options w)).
Proof.
  intros Hfuel. rewrite <- (retry_phase_run options flags w s).
  unfold import_with_retry. rewrite !bind_run, !emit_log. cbv beta iota zeta.
  destruct fuel as [|fuel]; [unfold max_tries in Hfuel; lia|].
  change max_tries with (S (max_tries - 1)) at 1.
  rewrite !while_closed_form by (try done; cbn [tries]; unfold max_tries in *; lia).
  cbn [tries].
  by rewrite (first_stop_stable options w fuel (max_tries - 1) 1)
    by (unfold max_tries in *; simpl; lia).
Qed.

(** Twelve passes of fuel on the run with two transient failures. *)
Lemma retry_phase_closed_form_witness :
  let w := Ex.world Ex.transient_twice "cell/a" in
  max_tries <= 12
  /\ import_with_retry Ex.opts Ex.no_flags w 12 Ex.start =
     (retry_result Ex.opts w, log Ex.start (retry_events Ex.opts w)).
Proof.
  intros w.
  assert (H : max_tries <= 12) by (unfold max_tries; lia).
  split; [exact H|]. exact (retry_phase_closed_form Ex.opts Ex.no_flags w Ex.start 12 H).
Defined.

(** X2. In a run of the retry loop the import tool is invoked [m] times,
    with [m] between one and ten, and with a sleep of ten units before
    each invocation but the first.  When the loop returns, its counter is
    [m] and it asks for no further attempt.  [m] is the least pass of the
    loop body that does not ask for another one: every pass before it
    returns and asks for the next, the pass [m] does not.  It is the last
    attempt of the closed form. *)
Theorem last_attempt_least options flags w s :
  let run := import_with_retry options flags w max_tries s in
  let m := List.length (List.filter is_popen (emitted s run.2)) in
  1 <= m <= max_tries
  /\ List.filter is_io (emitted s run.2) = ladder (command_line options) (m - 1)
  /\ (forall l, run.1 = Ok l -> tries l = m /\ next_try l = false)
  /\ (forall n l s', 1 <= n < m -> S (tries l) = n -> noOverlap l = false ->
        exists l', (loop_body options w (kwargsstr_of options) l s').1 = Ok l'
                   /\ tries l' = n /\ next_try l' = true /\ noOverlap l' = false)
  /\ (forall l s' l', S (tries l) = m -> noOverlap l = false ->
        (loop_body options w (kwargsstr_of options) l s').1 = Ok l' ->
        tries l' = m /\ next_try l' = false)
  /\ m = last_attempt options w.
Proof.
  intros run m. unfold m, run. rewrite retry_phase_run. cbn [fst snd].
  rewrite emitted_log.
  destruct (last_attempt_spec options w) as (Hb & Hs & Hl & Hio & Hpop).
  cbv zeta in Hb, Hs, Hl, Hio, Hpop. rewrite Hpop.
  split; [exact Hb|]. split; [exact Hio|]. split; [|split; [|split; [|done]]].
  - intros l. unfold retry_result.
    destruct (attempt_decodes options w (last_attempt options w)); [|done].
    by intros [= <-].
  - intros n l s' Hn Hl' Hflag.
    rewrite loop_body_attempt by done. rewrite Hl'. cbn [fst].
    pose proof (Hl n Hn) as Hretry.
    pose proof Hretry as (Hd & Hf & _)%attempt_retries_inv.
    rewrite Hd, Hretry, Hf. by eexists.
  - intros l s' l' Hl' Hflag.
    rewrite loop_body_attempt by done. rewrite Hl'. cbn [fst].
    destruct (attempt_decodes options w (last_attempt options w)); [|done].
    rewrite Hs. by intros [= <-].
Qed.

(** X7. Once the setup has completed, the outcome of the worker is a
    function of the attempts and of the artifact lookup: it returns 0 when
    the last attempt decodes and the artifact is found as a raster or as a
    group, or the last attempt set the no-overlap flag; it ends in the
    fatal error when the last attempt decodes and neither holds; it ends
    in [UnicodeDecodeError] otherwise.  The group is looked up only when
    no raster is found, the private file is removed and the pointer put
    back only on the normal return. *)
Theorem main_closed_form o fl w s gisrc s1 :
  workspace_setup o w s = (Ok gisrc, s1) ->
  main o fl w s =
  (run_outcome o w,
   {| environ := closing_environ o w gisrc (environ s1);
      trace := trace s1 ++ retry_events o w ++ closing_events o w gisrc |}).
Proof. apply main_after_setup. Qed.

(** Two transient failures, the progress ladder, and the raster is found. *)
Lemma main_closed_form_witness :
  let w := Ex.world Ex.transient_twice "cell/a" in
  let s1 := (workspace_setup Ex.opts w Ex.start).2 in
  workspace_setup Ex.opts w Ex.start = (Ok "/tmp/grass/rc", s1)
  /\ main Ex.opts Ex.no_flags w Ex.start =
     (run_outcome Ex.opts w,
      {| environ := closing_environ Ex.opts w "/tmp/grass/rc" (environ s1);
         trace := trace s1 ++ retry_events Ex.opts w
                  ++ closing_events Ex.opts w "/tmp/grass/rc" |}).
Proof.
  intros w s1.
  assert (H : workspace_setup Ex.opts w Ex.start = (Ok "/tmp/grass/rc", s1))
    by (vm_compute; reflexivity).
  split; [exact H|]. exact (main_closed_form Ex.opts Ex.no_flags w Ex.start _ s1 H).
Defined.

(** X8. The worker always ends, with exit status 0 or 1; the status is 0
    exactly when [main] returns, and it returns nothing but 0. *)
Theorem exit_status_binary o fl w s :
  let r := (main o fl w s).1 in
  (exit_status r = Some 0%Z \/ exit_status r = Some 1%Z)
  /\ (exit_status r = Some 0%Z <-> r = Ok 0%Z)
  /\ (forall c, r = Ok c -> c = 0%Z).
Proof.
  intros r. unfold r.
  destruct (main_run o fl w s) as (r' & s' & evs & Hmain & _ & Hcases).
  rewrite Hmain. cbn [fst].
  assert (Hraise : forall e : exn,
            (match e with SystemExit c => c = 1%Z | _ => True end) ->
            (exit_status (Raise e) = Some 0%Z \/ exit_status (Raise e) = Some 1%Z)
            /\ (exit_status (Raise e) = Some 0%Z <-> @Raise Z e = Ok 0%Z)
            /\ (forall c, @Raise Z e = Ok c -> c = 0%Z)).
  { intros e He. destruct e; cbn; subst; repeat split; auto; done. }
  destruct Hcases as [(k & -> & _) | (gisrc & s1 & _ & Hcases)]; [by apply Hraise|].
  destruct Hcases as [(-> & _) | (l & s2 & _ & Hcases)]; [by apply Hraise|].
  destruct Hcases as [(-> & _) | (-> & _)]; [|by apply Hraise].
  cbn. repeat split; auto. by intros c [= <-].
Qed.

(** * The environment *)

Lemma with_defaults_lookup env :
  with_defaults env !! "GISRC" = env !! "GISRC"
  /\ with_defaults env !! "GRASS_COMPRESS_NULLS" = Some "1"
  /\ with_defaults env !! "GRASS_COMPRESSOR" = Some "LZ4"
  /\ with_defaults env !! "GRASS_MESSAGE_FORMAT" = Some "plain".
Proof.
  unfold with_defaults. repeat split.
  - by rewrite !lookup_insert_ne.
  - do 2 (rewrite lookup_insert_ne by done). by rewrite lookup_insert_eq.
  - rewrite lookup_insert_ne by done. by rewrite lookup_insert_eq.
  - by rewrite lookup_insert_eq.
Qed.

(** X9. After a completed setup, and up to the end of the retry phase,
    the environment is the one from before the run with the three
    defaults set and the pointer on the private file: every attempt runs
    in the private session with null compression, LZ4 and plain
    messages. *)
Theorem private_session_during_import o fl w s gisrc s1 :
  workspace_setup o w s = (Ok gisrc, s1) ->
  let s2 := (import_with_retry o fl w max_tries s1).2 in
  environ s2 = environ s1
  /\ environ s1 = <["GISRC" := gisrc +:+ "_" +:+ pretty (w_pid w)]> (with_defaults (environ s))
  /\ environ s2 !! "GISRC" = Some (gisrc +:+ "_" +:+ pretty (w_pid w))
  /\ environ s2 !! "GRASS_COMPRESS_NULLS" = Some "1"
  /\ environ s2 !! "GRASS_COMPRESSOR" = Some "LZ4"
  /\ environ s2 !! "GRASS_MESSAGE_FORMAT" = Some "plain".
Proof.
  intros Hsetup s2. unfold s2. rewrite retry_phase_run. cbn [snd log environ].
  apply workspace_setup_state in Hsetup
    as (gisdbase & location & _ & _ & _ & _ & ->).
  unfold setup_state. cbn [environ].
  destruct (with_defaults_lookup (environ s)) as (_ & H1 & H2 & H3).
  repeat split; auto.
  - by rewrite lookup_insert_eq.
  - by rewrite lookup_insert_ne.
  - by rewrite lookup_insert_ne.
  - by rewrite lookup_insert_ne.
Qed.

(** The session of [Ex.start]. *)
Lemma private_session_during_import_witness :
  let w := Ex.world Ex.transient_twice "cell/a" in
  let s1 := (workspace_setup Ex.opts w Ex.start).2 in
  let s2 := (import_with_retry Ex.opts Ex.no_flags w max_tries s1).2 in
  environ s2 !! "GISRC" = Some "/tmp/grass/rc_4242"
  /\ environ s2 !! "GRASS_COMPRESSOR" = Some "LZ4".
Proof.
  intros w s1 s2.
  assert (H : workspace_setup Ex.opts w Ex.start = (Ok "/tmp/grass/rc", s1))
    by (vm_compute; reflexivity).
  destruct (private_session_during_import Ex.opts Ex.no_flags w Ex.start _ s1 H)
    as (_ & _ & Hrc & _ & Hlz & _).
  split; [exact Hrc|exact Hlz].
Defined.

(** X10. When [main] returns, the environment is the one from before the
    run with the three defaults set and nothing else changed: the pointer
    has its old value again; and the last thing done is the removal of the
    private file. *)
Theorem environment_after_return o fl w s c s' :
  main o fl w s = (Ok c, s') ->
  environ s' = with_defaults (environ s)
  /\ environ s' !! "GISRC" = environ s !! "GISRC"
  /\ exists gisrc evs,
       environ s !! "GISRC" = Some gisrc
       /\ emitted s s' = evs ++ [TryRemove (gisrc +:+ "_" +:+ pretty (w_pid w))].
Proof.
  intros Hmain.
  destruct (main_run o fl w s) as (r & s0 & evs & Hm & _ & Hcases).
  rewrite Hmain in Hm. injection Hm as <- <-.
  destruct Hcases as [(k & ? & _) | (gisrc & s1 & Hsetup & _)]; [done|].
  rewrite (main_after_setup o fl w s gisrc s1 Hsetup) in Hmain.
  injection Hmain as Hout <-.
  apply workspace_setup_state in Hsetup
    as (gisdbase & location & _ & _ & Hrc & _ & ->).
  destruct (with_defaults_lookup (environ s)) as (Hrc' & _).
  assert (Henv : closing_environ o w gisrc (environ (setup_state o w s gisdbase location gisrc))
                 = with_defaults (environ s)).
  { unfold closing_environ. rewrite Hout. unfold setup_state. cbn [environ].
    rewrite insert_insert_eq. apply insert_id. by rewrite Hrc'. }
  cbn [environ]. rewrite Henv. split; [done|]. split; [by rewrite Hrc'|].
  exists gisrc.
  assert (Hclose : closing_events o w gisrc =
                   lookup_events o w ++ [TryRemove (gisrc +:+ "_" +:+ pretty (w_pid w))]).
  { unfold closing_events. unfold run_outcome in Hout.
    destruct (retry_result o w) as [l|e|]; [|done|done].
    by destruct (artifact_found o w || noOverlap l). }
  exists (setup_events o w gisdbase location gisrc ++ retry_events o w ++ lookup_events o w).
  split; [done|].
  apply emitted_trace. unfold setup_state. cbn [trace].
  by rewrite Hclose, <- !app_assoc.
Qed.

(** The raster is found after two transient failures. *)
Lemma environment_after_return_witness :
  let w := Ex.world Ex.transient_twice "cell/a" in
  let s' := (main Ex.opts Ex.no_flags w Ex.start).2 in
  main Ex.opts Ex.no_flags w Ex.start = (Ok 0%Z, s')
  /\ environ s' = with_defaults (environ Ex.start)
  /\ environ s' !! "GISRC" = environ Ex.start !! "GISRC".
Proof.
  intros w s'.
  assert (H : main Ex.opts Ex.no_flags w Ex.start = (Ok 0%Z, s'))
    by (vm_compute; reflexivity).
  destruct (environment_after_return Ex.opts Ex.no_flags w Ex.start _ s' H)
    as (Henv & Hrc & _).
  split; [exact H|]. split; [exact Henv|exact Hrc].
Defined.

(** X11. If the attempts up to the [m]-th are each followed by another
    one and the [m]-th prints bytes that are not UTF-8, the worker ends in
    [UnicodeDecodeError] right after that invocation, with exit status 1:
    the tool has been invoked [m] times, nothing is looked up or removed,
    and the pointer is left on the private file. *)
Theorem undecodable_output_aborts o fl w s gisrc s1 m :
  workspace_setup o w s = (Ok gisrc, s1) ->
  1 <= m ->
  (forall n, 1 <= n < m -> attempt_retries o w n = true) ->
  attempt_decodes o w m = false ->
  exists evs,
    main o fl w s = (Raise UnicodeDecodeError, log s1 (evs ++ [Popen (command_line o)]))
    /\ exit_status (main o fl w s).1 = Some 1%Z
    /\ List.length (List.filter is_popen (evs ++ [Popen (command_line o)])) = m
    /\ environ (main o fl w s).2 !! "GISRC" = Some (gisrc +:+ "_" +:+ pretty (w_pid w))
    /\ environ (main o fl w s).2 !! "GISRC" <> environ s !! "GISRC".
Proof.
  intros Hsetup Hm Hretries Hdec.
  assert (Hstop : attempt_retries o w m = false).
  { unfold attempt_retries. by rewrite Hdec. }
  pose proof (last_attempt_unique o w m Hm Hstop Hretries) as Hlast.
  assert (Hout : run_outcome o w = Raise UnicodeDecodeError).
  { unfold run_outcome, retry_result. by rewrite Hlast, Hdec. }
  assert (Hclose : closing_events o w gisrc = []).
  { unfold closing_events, retry_result. by rewrite Hlast, Hdec. }
  assert (Hevents : retry_events o w =
                    (Message "Running r.import ..."
                     :: concat (attempt_events o w <$> seq 1 (m - 1)))
                    ++ [Popen (command_line o)]).
  { unfold retry_events. rewrite Hlast. replace m with (S (m - 1)) at 1 by lia.
    rewrite seq_S, fmap_app, concat_app. cbn [fmap list_fmap concat].
    replace (1 + (m - 1)) with m by lia.
    unfold attempt_events at 2. by rewrite Hdec, app_nil_r. }
  destruct (last_attempt_spec o w) as (_ & _ & _ & _ & Hpop).
  rewrite Hlast, Hevents in Hpop.
  eexists. rewrite (main_after_setup o fl w s gisrc s1 Hsetup).
  unfold closing_environ. rewrite Hout, Hclose, app_nil_r, Hevents. cbn [fst snd environ].
  split; [reflexivity|]. split; [reflexivity|]. split; [exact Hpop|].
  apply workspace_setup_ok_inv in Hsetup as (Hold & Hnew & _).
  rewrite Hnew, Hold. split; [done|].
  intros [= H]. by apply newgisrc_fresh in H.
Qed.

(** The first attempt prints a lone continuation byte. *)
Lemma undecodable_output_aborts_witness :
  let w := Ex.world (fun _ => String "128" "") "" in
  let s1 := (workspace_setup Ex.opts w Ex.start).2 in
  exists evs,
    main Ex.opts Ex.no_flags w Ex.start =
    (Raise UnicodeDecodeError, log s1 (evs ++ [Popen (command_line Ex.opts)]))
    /\ exit_status (main Ex.opts Ex.no_flags w Ex.start).1 = Some 1%Z
    /\ List.length (List.filter is_popen (evs ++ [Popen (command_line Ex.opts)])) = 1
    /\ environ (main Ex.opts Ex.no_flags w Ex.start).2 !! "GISRC" =
       Some ("/tmp/grass/rc" +:+ "_" +:+ pretty (w_pid w))
    /\ environ (main Ex.opts Ex.no_flags w Ex.start).2 !! "GISRC"
       <> environ Ex.start !! "GISRC".
Proof.
  intros w s1.
  refine (undecodable_output_aborts Ex.opts Ex.no_flags w Ex.start _ s1 1 _ _ _ _).
  - vm_compute. reflexivity.
  - lia.
  - intros n Hn. lia.
  - vm_compute. reflexivity.
Defined.

(** * The private session file *)

Lemma append_inv_head (a b c : string) : a +:+ b = a +:+ c -> b = c.
Proof.
  induction a as [|x a IH]; [done|].
  rewrite !append_cons. intros [= H]. by apply IH.
Qed.

Lemma newgisrc_inj gisrc (p1 p2 : N) :
  gisrc +:+ "_" +:+ pretty p1 = gisrc +:+ "_" +:+ pretty p2 -> p1 = p2.
Proof.
  intros H. apply append_inv_head in H.
  change ("_" +:+ pretty p1) with (String "_" (pretty p1)) in H.
  change ("_" +:+ pretty p2) with (String "_" (pretty p2)) in H.
  injection H as H. by apply (inj pretty).
Qed.

(** The files a completed setup removes and copies. *)
Lemma setup_events_files o w gisdbase location gisrc :
  (forall src dst,
     CopyFile src dst ∈ setup_events o w gisdbase location gisrc ->
     src = gisrc /\ dst = gisrc +:+ "_" +:+ pretty (w_pid w))
  /\ (forall p,
        TryRemove p ∈ setup_events o w gisdbase location gisrc ->
        p = gisrc +:+ "_" +:+ pretty (w_pid w)).
Proof.
  unfold setup_events. cbv zeta.
  split; [intros src dst H|intros p H].
  all: destruct (decide (extent o = "region")); cbn [app] in H.
  all: repeat (apply elem_of_cons in H as [H|H];
               [try discriminate H; injection H; intros; by subst|]).
  all: by apply elem_of_nil in H.
Qed.

Lemma emitted_setup_state o w s gisdbase location gisrc :
  emitted s (setup_state o w s gisdbase location gisrc) =
  setup_events o w gisdbase location gisrc.
Proof. by apply emitted_trace. Qed.

(** X12. Two workers started from the same session with different
    process identifiers use different private session files: the files
    they remove and copy to differ, and so do the pointers they set. *)
Theorem private_file_per_pid o w s p1 p2 g1 s1 g2 s2 :
  p1 <> p2 ->
  workspace_setup o (with_pid w p1) s = (Ok g1, s1) ->
  workspace_setup o (with_pid w p2) s = (Ok g2, s2) ->
  g1 = g2
  /\ environ s1 !! "GISRC" <> environ s2 !! "GISRC"
  /\ (forall src dst, CopyFile src dst ∈ emitted s s1 -> CopyFile src dst ∉ emitted s s2)
  /\ (forall p, TryRemove p ∈ emitted s s1 -> TryRemove p ∉ emitted s s2).
Proof.
  intros Hne H1 H2.
  pose proof H1 as (Hold1 & Hnew1 & _)%workspace_setup_ok_inv.
  pose proof H2 as (Hold2 & Hnew2 & _)%workspace_setup_ok_inv.
  apply workspace_setup_state in H1 as (db1 & loc1 & _ & _ & _ & _ & ->).
  apply workspace_setup_state in H2 as (db2 & loc2 & _ & _ & _ & _ & ->).
  assert (Hg : g1 = g2) by congruence. subst g2.
  cbn [w_pid with_pid] in Hnew1, Hnew2.
  rewrite !emitted_setup_state.
  destruct (setup_events_files o (with_pid w p1) db1 loc1 g1) as [Hc1 Hr1].
  destruct (setup_events_files o (with_pid w p2) db2 loc2 g1) as [Hc2 Hr2].
  cbn [w_pid with_pid] in Hc1, Hr1, Hc2, Hr2.
  split; [done|]. split; [|split].
  - rewrite Hnew1, Hnew2. intros [= H]. by apply newgisrc_inj in H.
  - intros src dst [_ ->]%Hc1 [_ H]%Hc2. by apply newgisrc_inj in H.
  - intros p ->%Hr1 H%Hr2. by apply newgisrc_inj in H.
Qed.

(** Two workers of the session of [Ex.start]. *)
Lemma private_file_per_pid_witness :
  let w := Ex.world (fun _ => "") "" in
  let s1 := (workspace_setup Ex.opts (with_pid w 4242) Ex.start).2 in
  let s2 := (workspace_setup Ex.opts (with_pid w 4243) Ex.start).2 in
  environ s1 !! "GISRC" <> environ s2 !! "GISRC".
Proof.
  intros w s1 s2.
  refine (proj1 (proj2 (private_file_per_pid Ex.opts w Ex.start 4242 4243
                          "/tmp/grass/rc" s1 "/tmp/grass/rc" s2 _ _ _))).
  - discriminate.
  - vm_compute. reflexivity.
  - vm_compute. reflexivity.
Defined.

(** * Quoting *)

Lemma format_option_split k a k2 b :
  format_option (k, a +:+ "' " +:+ k2 +:+ "='" +:+ b) =
  format_option (k, a) +:+ format_option (k2, b).
Proof.
  unfold format_option. cbn [fst snd]. rewrite !append_assoc. reflexivity.
Qed.

Lemma concat_strings_app l1 l2 :
  concat_strings (l1 ++ l2) = concat_strings l1 +:+ concat_strings l2.
Proof.
  induction l1 as [|x l1 IH]; [done|].
  cbn [app concat_strings]. by rewrite IH, append_assoc.
Qed.

Lemma truthy_append a b : a <> "" -> PyStr.truthy (a +:+ b) = true.
Proof. destruct a; [done|reflexivity]. Qed.

Lemma truthy_true a : a <> "" -> PyStr.truthy a = true.
Proof. by destruct a. Qed.

(** X13. A value is put between single quotes as it is: a quote inside
    it is not escaped.  An input value that ends a quote and opens the
    [band] option gives the very command line of the options with that
    input and that band. *)
Theorem quotes_not_escaped o a b :
  a <> "" -> b <> "" ->
  command_line (with_input_band o (a +:+ "' band='" +:+ b) "") =
  command_line (with_input_band o a b).
Proof.
  intros Ha Hb. unfold command_line.
  rewrite !build_kwargs_forwarded, !build_kwargsstr_concat by apply options_items_NoDup.
  f_equal.
  set (rest := [ ("memory", memory o); ("output", output o); ("resample", resample o);
                 ("extent", extent o); ("resolution", resolution o);
                 ("resolution_value", resolution_value o); ("title", title o) ]).
  change (options_items (with_input_band o (a +:+ "' band='" +:+ b) ""))
    with ([("newmapset", newmapset o)]
          ++ [("input", a +:+ "' band='" +:+ b); ("band", "")] ++ rest).
  change (options_items (with_input_band o a b))
    with ([("newmapset", newmapset o)] ++ [("input", a); ("band", b)] ++ rest).
  rewrite !forwarded_app, !fmap_app, !concat_strings_app. do 2 f_equal.
  rewrite (forwarded_cons ("input", a +:+ "' band='" +:+ b)), (forwarded_cons ("band", "")),
    (forwarded_cons ("input", a)), (forwarded_cons ("band", b)).
  cbn [fst snd].
  change (bool_decide ("input" = "newmapset")) with false.
  change (bool_decide ("band" = "newmapset")) with false.
  cbn [negb andb PyStr.truthy].
  rewrite (truthy_append a), (truthy_true a), (truthy_true b) by done.
  cbn [fmap list_fmap concat_strings forwarded List.filter].
  change (a +:+ "' band='" +:+ b) with (a +:+ "' " +:+ "band" +:+ "='" +:+ b).
  by rewrite format_option_split, append_assoc.
Qed.

(** An input that smuggles the band [2]. *)
Lemma quotes_not_escaped_witness :
  "a.tif" <> "" /\ "2" <> ""
  /\ command_line (with_input_band Ex.opts ("a.tif" +:+ "' band='" +:+ "2") "") =
     command_line (with_input_band Ex.opts "a.tif" "2").
Proof.
  assert (Ha : "a.tif" <> "") by discriminate.
  assert (Hb : "2" <> "") by discriminate.
  split; [exact Ha|]. split; [exact Hb|]. exact (quotes_not_escaped Ex.opts _ _ Ha Hb).
Defined.

(** * The directory that is removed *)

Lemma ends_with_slash_append a b :
  b <> "" -> PyStr.ends_with_slash (a +:+ b) = PyStr.ends_with_slash b.
Proof.
  intros Hb. unfold PyStr.ends_with_slash. fold chars.
  rewrite chars_app, rev_app_distr.
  destruct (rev (chars b)) as [|c r] eqn:Hr; [|done].
  exfalso. apply Hb, chars_inj.
  apply (f_equal (@rev ascii)) in Hr. by rewrite rev_involutive in Hr.
Qed.

Lemma join2_absolute path b : String.prefix "/" b = true -> PyStr.join2 path b = b.
Proof. intros H. unfold PyStr.join2. by rewrite H. Qed.

Lemma join2_relative path b :
  String.prefix "/" b = false -> path <> "" -> PyStr.ends_with_slash path = false ->
  PyStr.join2 path b = path +:+ "/" +:+ b.
Proof.
  intros Hb Hp Hs. unfold PyStr.join2.
  by rewrite Hb, (truthy_true path), Hs.
Qed.

(** X14. The directory a completed setup removes is the mapset name
    itself when that name is absolute, whatever the database and the
    location are; it is [database/location/mapset] when location and
    mapset are relative and database and location are not empty and do
    not end in a slash. *)
Theorem rmdir_target o w s gisrc s1 gisdbase location :
  workspace_setup o w s = (Ok gisrc, s1) ->
  w_gisenv w !! "GISDBASE" = Some gisdbase ->
  w_gisenv w !! "LOCATION_NAME" = Some location ->
  (String.prefix "/" (newmapset o) = true -> TryRmdir (newmapset o) ∈ emitted s s1)
  /\ (String.prefix "/" location = false ->
      String.prefix "/" (newmapset o) = false ->
      gisdbase <> "" -> PyStr.ends_with_slash gisdbase = false ->
      location <> "" -> PyStr.ends_with_slash location = false ->
      TryRmdir (gisdbase +:+ "/" +:+ location +:+ "/" +:+ newmapset o) ∈ emitted s s1).
Proof.
  intros Hsetup Hdb Hloc.
  apply workspace_setup_state in Hsetup as (db & loc & Hdb' & Hloc' & _ & _ & ->).
  rewrite Hdb in Hdb'. rewrite Hloc in Hloc'.
  injection Hdb' as <-. injection Hloc' as <-.
  rewrite emitted_setup_state.
  assert (Hin : TryRmdir (PyStr.path_join gisdbase [location; newmapset o])
                ∈ setup_events o w gisdbase location gisrc).
  { unfold setup_events. cbv zeta. apply elem_of_app. left.
    apply list_elem_of_further, list_elem_of_here. }
  change (PyStr.path_join gisdbase [location; newmapset o])
    with (PyStr.join2 (PyStr.join2 gisdbase location) (newmapset o)) in Hin.
  split.
  - intros Habs. by rewrite join2_absolute in Hin.
  - intros Hl Hm Hd Hds Hln Hls.
    rewrite (join2_relative gisdbase location) in Hin by done.
    rewrite join2_relative in Hin; [|done|by destruct gisdbase|].
    + by rewrite !append_assoc in Hin.
    + rewrite ends_with_slash_append by done.
      by rewrite (ends_with_slash_append "/" location).
Qed.

(** The mapset [job1] of the location [utm32]. *)
Lemma rmdir_target_witness :
  let w := Ex.world (fun _ => "") "" in
  let s1 := (workspace_setup Ex.opts w Ex.start).2 in
  TryRmdir ("/data/grassdb" +:+ "/" +:+ "utm32" +:+ "/" +:+ newmapset Ex.opts)
  ∈ emitted Ex.start s1.
Proof.
  intros w s1.
  refine (proj2 (rmdir_target Ex.opts w Ex.start "/tmp/grass/rc" s1
                   "/data/grassdb" "utm32" _ _ _) _ _ _ _ _ _);
    try reflexivity; discriminate.
Defined.

(** * Ways the worker aborts *)

Lemma artifact_found_false o w : artifact_found o w = false <-> artifact_missing o w.
Proof.
  unfold artifact_found, artifact_missing.
  rewrite orb_false_iff, !truthy_false. done.
Qed.

(** C3, the claim as stated fails: an aborting error is raised although the
    artifact exists.  The tool prints a byte that is not UTF-8, the
    decoding inside the loop raises, and the worker ends with status 1
    without reaching the verification; and with [GISRC] unset the setup
    raises before the loop is entered. *)
Lemma abort_with_artifact_present_counterexample :
  let w := Ex.world (fun _ => String "128" "") "cell/a" in
  let run := main Ex.opts Ex.no_flags w Ex.start in
  let unset := main Ex.opts Ex.no_flags w {| environ := ∅; trace := [] |} in
  ~ artifact_missing Ex.opts w
  /\ run.1 = Raise UnicodeDecodeError
  /\ exit_status run.1 = Some 1%Z
  /\ List.filter is_fatal (emitted Ex.start run.2) = []
  /\ unset.1 = Raise (KeyError "GISRC")
  /\ exit_status unset.1 = Some 1%Z
  /\ List.filter is_popen (trace unset.2) = [].
Proof.
  intros w run unset. split.
  - intros [H _]. vm_compute in H. discriminate H.
  - vm_compute. repeat split.
Qed.

(** C3, amended.  For every run whose setup completes, and with
    collaborators that return, the worker aborts in exactly two ways.  The
    fatal error of [grass.fatal] is raised if and
    only if the retry loop has ended and the output name is found neither
    as a raster nor as a group and the no-overlap flag is clear.  An
    uncaught [UnicodeDecodeError] leaves the retry loop if and only if the
    output of the last attempt made is not UTF-8.  Otherwise [main]
    returns 0.  The loop never raises the fatal error, and a pass whose
    output decodes returns, whatever rule classifies it. *)
Theorem abort_after_completed_setup options flags w s gisrc s1 :
  workspace_setup options w s = (Ok gisrc, s1) ->
  let r := (main options flags w s).1 in
  let evs := emitted s (main options flags w s).2 in
  let loop := import_with_retry options flags w max_tries s1 in
  (r = Raise (SystemExit 1) <->
     exists l, loop.1 = Ok l /\ artifact_missing options w /\ noOverlap l = false)
  /\ (r = Raise UnicodeDecodeError <-> loop.1 = Raise UnicodeDecodeError)
  /\ (loop.1 = Raise UnicodeDecodeError <->
      attempt_decodes options w (last_attempt options w) = false)
  /\ (r = Ok 0%Z \/ r = Raise (SystemExit 1) \/ r = Raise UnicodeDecodeError)
  /\ (exit_status r <> Some 0%Z <->
      r = Raise (SystemExit 1) \/ r = Raise UnicodeDecodeError)
  /\ (r = Raise (SystemExit 1) ->
      List.filter is_fatal evs = [Fatal ("ERROR " +:+ output options)])
  /\ (r <> Raise (SystemExit 1) -> List.filter is_fatal evs = [])
  /\ (forall c, loop.1 <> Raise (SystemExit c))
  /\ List.filter is_fatal (emitted s1 loop.2) = []
  /\ (forall kwargsstr l s0,
        PyStr.utf8_valid (w_import w (S (tries l)) (import_cmd kwargsstr)).1 = true ->
        PyStr.utf8_valid (w_import w (S (tries l)) (import_cmd kwargsstr)).2 = true ->
        exists l' s',
          loop_body options w kwargsstr l s0 = (Ok l', s')
          /\ List.filter is_fatal (emitted s0 s') = []).
Proof.
  intros Hsetup r evs loop.
  assert (Hdec : loop.1 = Raise UnicodeDecodeError <->
                 attempt_decodes options w (last_attempt options w) = false).
  { unfold loop. rewrite retry_phase_run. cbn [fst]. unfold retry_result.
    destruct (attempt_decodes options w (last_attempt options w)); split; done. }
  assert (Hloop : (forall c, loop.1 <> Raise (SystemExit c))
                  /\ List.filter is_fatal (emitted s1 loop.2) = []).
  { unfold loop.
    destruct (import_with_retry_run options flags w max_tries s1 (le_n _))
      as (r1 & evs1 & k & Hrun & Hres & _ & _ & Hfat).
    rewrite Hrun. cbn [fst snd]. rewrite emitted_log. split; [|done].
    intros c. by destruct Hres as [(l & -> & _) | -> ]. }
  assert (Hbody : forall kwargsstr l s0,
            PyStr.utf8_valid (w_import w (S (tries l)) (import_cmd kwargsstr)).1 = true ->
            PyStr.utf8_valid (w_import w (S (tries l)) (import_cmd kwargsstr)).2 = true ->
            exists l' s',
              loop_body options w kwargsstr l s0 = (Ok l', s')
              /\ List.filter is_fatal (emitted s0 s') = []).
  { intros kwargsstr l s0 H1 H2. rewrite loop_body_run, H1, H2. cbn [andb].
    destruct (classify_total (output options)
                (S (tries l) <? max_tries)%nat
                ((w_import w (S (tries l)) (import_cmd kwargsstr)).1
                 +:+ (w_import w (S (tries l)) (import_cmd kwargsstr)).2)) as [rl Hrl].
    rewrite Hrl. eexists _, _. split; [reflexivity|].
    rewrite emitted_log. cbn [List.filter is_fatal]. apply rule_events_no_fatal. }
  destruct (main_run options flags w s) as (r' & s' & evs' & Hmain & Htr & Hcases).
  assert (Hr : r = r') by (unfold r; by rewrite Hmain).
  assert (Hevs : evs = evs').
  { unfold evs. rewrite Hmain. by apply emitted_trace. }
  rewrite Hr, Hevs. clear r evs Hr Hevs Hmain Htr.
  destruct Hcases as [(k & _ & Hk & _) | (g & s1' & Hs & Hcases)].
  { by rewrite Hsetup in Hk. }
  rewrite Hsetup in Hs. injection Hs as <- <-. fold loop in Hcases.
  destruct Hloop as [Hnofatal Hquiet].
  destruct Hcases as [(-> & Hu & Hf) | (l & s2 & Hl & Hcases)].
  { repeat split; auto; try done.
    - intros (l & Hl & _). by rewrite Hu in Hl.
    - by apply Hdec. }
  assert (Hl1 : loop.1 = Ok l) by (by rewrite Hl).
  assert (Hd1 : attempt_decodes options w (last_attempt options w) = true).
  { apply not_false_iff_true. intros Hd. apply Hdec in Hd. by rewrite Hl1 in Hd. }
  destruct Hcases as [(-> & Hnot & Hf & _) | (-> & Hmiss & Hflag & Hf & _)].
  - repeat split; auto; try done.
    all: try (intros H; rewrite Hl1 in H; done).
    all: try (intros H; rewrite Hd1 in H; done).
    all: try (intros [H|H]; done).
    all: try (intros H; by destruct H).
    intros (l0 & Hl0 & Hm & Hfl). rewrite Hl1 in Hl0. injection Hl0 as <-.
    by destruct Hnot.
  - repeat split; auto; try done.
    all: try (intros H; rewrite Hl1 in H; done).
    all: try (intros H; rewrite Hd1 in H; done).
    intros _. by exists l.
Qed.

(** The tool prints nothing and no artifact exists: the fatal error. *)
Lemma abort_after_completed_setup_witness :
  let w := Ex.world (fun _ => "") "" in
  let s1 := (workspace_setup Ex.opts w Ex.start).2 in
  let r := (main Ex.opts Ex.no_flags w Ex.start).1 in
  workspace_setup Ex.opts w Ex.start = (Ok "/tmp/grass/rc", s1)
  /\ (r = Raise (SystemExit 1) <->
      exists l, (import_with_retry Ex.opts Ex.no_flags w max_tries s1).1 = Ok l
                /\ artifact_missing Ex.opts w /\ noOverlap l = false)
  /\ (r = Ok 0%Z \/ r = Raise (SystemExit 1) \/ r = Raise UnicodeDecodeError).
Proof.
  intros w s1 r.
  assert (H : workspace_setup Ex.opts w Ex.start = (Ok "/tmp/grass/rc", s1))
    by (vm_compute; reflexivity).
  destruct (abort_after_completed_setup Ex.opts Ex.no_flags w Ex.start _ s1 H)
    as (Hfatal & _ & _ & Hcases & _).
  split; [exact H|]. split; [exact Hfatal|exact Hcases].
Defined.
